(* ===== verification/_CoqProject ===== *)
-Q . S2P
Prelude.v
RustFmt.v
Timecode.v
Metadata.v
Cuesheet.v
Program.v
