(* ===== verification/Prelude.v ===== *)
(** * A verification development of musicbrainz-cuesheet

    The program ([src/src/main.rs], one Rust file) fetches a release from
    MusicBrainz and writes one CD cue sheet per medium of the release,
    then optionally downloads the cover art.  Its parts, and the files
    of this development that model them:

    - [Prelude] (this file): the shared vocabulary.  [outcome] is a Rust
      computation that either returns or panics ([Option::unwrap] on
      [None]).  [writeln] is [writeln!] on a [String] buffer, and
      [render] gives the text of a list of written lines.  [is_u32] and
      [wrap_u32] give the width of the [u32] integers, and [split_lines]
      is a line splitter used to state round trips.  The hint database
      [cue] and the tactic [outcome_simpl] carry the routine steps.
    - [RustFmt]: what the [format!] directives of the code print.  These
      are [{}] on [u32] and [i32] ([dec_N], [dec_Z]), [{:02}] ([pad2]),
      [collect::<String>()] and [join] ([String.concat]).  The decimal
      parser [parse_dec] states the round trips.
    - [Timecode]: [millisecond_to_mmssff] (main.rs 34-45).  The frame
      count is computed as the code does it, in IEEE binary64 arithmetic:
      Rocq's primitive floats, rounding half away from zero ([f64::round])
      and the saturating [as u32] cast.
    - [Metadata]: the release data the code reads (the musicbrainz_rs
      entities [Release], [Medium], [Track], [ArtistCredit], [Genre],
      [LabelInfo] and chrono's [NaiveDate]), [join_artists]
      (main.rs 27-32) and the release header block of [main]
      (main.rs 73-110).
    - [Cuesheet]: the per-medium part of [main] (main.rs 112-143): the
      medium identifier, the TITLE line, and the track loop with its
      running [u32] offset [track_start].
    - [Program]: [main] as a whole (main.rs 58-170) and
      [download_cover_art] (main.rs 47-56).  The state is a world
      (files, directories, standard error, the delays slept).  A small
      state-and-panic monad threads it.  The network and the CLI parser
      are oracles given as section variables.

    The theorems, by group (the claims C1-C23 of the manifest):
    - [Timecode]: the binary64 frame computation equals an exact integer
      formula on every input ([frames_of_exact], checked by the kernel
      on all 1000 residues).  Seconds are below 60, frames at most 75,
      minutes at most 71582 for a u32 offset ([mmssff_bounds]).  Frames
      reach 75 exactly when [ms mod 1000 >= 994] ([frames_of_overflow]),
      which the spec forbids.  The printed triple is worth the correctly
      rounded number of frames ([mmssff_value]).  It is the canonical
      timecode of [timecode_spec] exactly below 994 ([mmssff_refines]).
      The printed text parses back ([parse_millisecond_to_mmssff]).
    - [Metadata]: [join_artists] is, credit by credit in order, the name
      then the join phrase, with no separator of its own
      ([join_artists_spec]).  The date rule, year alone exactly on
      January 1 ([date_text_rule]).  The genre line of an empty list ([genre_line_empty]).  Label
      comments counted with their duplicates ([label_comment_count]).
    - [Cuesheet]: the lines of a medium's cue sheet, TITLE first and each
      INDEX at the u32-wrapped sum of the earlier lengths
      ([medium_lines_release]).  A missing length panics, the last track
      included ([medium_lines_missing_length]).  Debug and release builds
      agree below 2^32 ms, and the debug build panics beyond
      ([medium_lines_profiles]).  The PERFORMER line of a track
      ([track_performer_line]).  The written text splits back into the
      built lines when no field holds a line break ([medium_text_lines]);
      a title holding one adds a line, since nothing is escaped.
    - [Program]: the files a successful run writes ([main_writes]), and
      the cue files left on disk when a later medium panics
      ([main_partial_output]).  The cover-art loop goes on past HTTP
      errors and sleeps after every image ([download_images_log]).  A
      transport error aborts it ([download_images_transport_error]).
      Equal type tags overwrite ([download_images_overwrite]), and the
      loop saves an untagged image beside the cover directory, at
      [<out>/Cover.<ext>] ([download_images_untagged]).  A failed
      cover-art request only logs a line after the cue files
      ([main_cover_art_unavailable]); a single cover URL is saved as
      [<out>/Cover.<ext>] after the cue files ([main_cover_art_url]).

    Plan for the next steps: the INDEX timecodes read back from the
    rendered text of a whole medium; the title-line suffix at text
    level; the release header lines as text.

    Bounds and fuel.  No definition needs fuel: every loop of the code
    runs over a list, and the models recurse structurally on it.  Integers
    are kept as [Z] with their width stated ([is_u32]).  The u32 addition
    [track_start += track_length] depends on the build profile: a debug
    build panics on overflow and a release build wraps.  [Cuesheet] keeps
    both, through the parameter [overflow_checks].

    Not modelled: the HTTP client and the MusicBrainz API (oracles), clap's
    argument parsing (an oracle), the filesystem's own failures (every
    write succeeds), the contents of downloaded images (opaque bytes), and
    the user agent constant (no observable effect in the model). *)

From stdpp Require Export base list strings gmap.
From Stdlib Require Export ZArith Lia Ascii.

Declare Scope cue_scope.
Delimit Scope cue_scope with cue.
Open Scope string_scope.

(** List concatenation, written apart from the string [++] of
    [string_scope]. *)
Infix "++@" := app (at level 60, right associativity) : cue_scope.
Open Scope cue_scope.

(** ** Machine integers *)

Definition u32_modulus : Z := 2 ^ 32.
Definition u32_max : Z := u32_modulus - 1.

(** [is_u32 z] is the range of a Rust [u32]. *)
Definition is_u32 (z : Z) : bool := (0 <=? z)%Z && (z <? u32_modulus)%Z.

(** Release-profile arithmetic on [u32]: wrap around modulo [2^32]. *)
Definition wrap_u32 (z : Z) : Z := z mod u32_modulus.

(** ** Rust computations that may panic *)

Inductive outcome (A : Type) : Type :=
| Ok (a : A)
| Panic (msg : string).
Arguments Ok {A} a.
Arguments Panic {A} msg.

Definition outcome_bind {A B} (c : outcome A) (k : A -> outcome B) : outcome B :=
  match c with
  | Ok a => k a
  | Panic m => Panic m
  end.

Notation "'let?' x ':=' c 'in' k" := (outcome_bind c (fun x => k))
  (at level 100, x name, c at level 99, k at level 100) : cue_scope.

Definition unwrap_msg : string := "called `Option::unwrap()` on a `None` value".

(** [Option::unwrap]. *)
Definition unwrap {A} (o : option A) : outcome A :=
  match o with
  | Some a => Ok a
  | None => Panic unwrap_msg
  end.

(** [Option::unwrap_or_default] for strings and integers. *)
Definition unwrap_or_default_str (o : option string) : string :=
  match o with Some s => s | None => "" end.
Definition unwrap_or_default_Z (o : option Z) : Z :=
  match o with Some z => z | None => 0%Z end.

(** ** Text buffers *)

Definition nl_char : Ascii.ascii := Ascii.ascii_of_nat 10.
Definition nl : string := String nl_char EmptyString.

(** [writeln!(buf, "{}", line)] on a [String]. *)
Definition writeln (buf line : string) : string := buf ++ line ++ nl.

(** The text of a sequence of [writeln!] calls on an empty buffer. *)
Fixpoint render (ls : list string) : string :=
  match ls with
  | [] => ""
  | l :: ls' => l ++ nl ++ render ls'
  end.

(** A string holds no line break. *)
Fixpoint no_nl (s : string) : bool :=
  match s with
  | EmptyString => true
  | String c s' => negb (Ascii.eqb c nl_char) && no_nl s'
  end.

(** Split a text into its newline-terminated lines; [cur] is the line
    read so far (reversed). *)
Fixpoint split_lines_go (cur : list Ascii.ascii) (s : string) : list string :=
  match s with
  | EmptyString => match cur with [] => [] | _ => [String.string_of_list_ascii (rev cur)] end
  | String c s' =>
      if Ascii.eqb c nl_char
      then String.string_of_list_ascii (rev cur) :: split_lines_go [] s'
      else split_lines_go (c :: cur) s'
  end.
Definition split_lines (s : string) : list string := split_lines_go [] s.

(** ** Generic lemmas *)

Create HintDb cue.
Create Rewrite HintDb cue.

(** stdpp makes [String.append] opaque to [simpl]; these are its two
    equations. *)
Lemma string_app_nil_l (b : string) : "" ++ b = b.
Proof. reflexivity. Qed.

Lemma string_app_cons (c : Ascii.ascii) (a b : string) :
  String c a ++ b = String c (a ++ b).
Proof. reflexivity. Qed.

Lemma string_app_assoc (a b c : string) : (a ++ b) ++ c = a ++ (b ++ c).
Proof. induction a as [|x a IH]; [done | by rewrite !string_app_cons, IH]. Qed.

Lemma string_app_nil_r (a : string) : a ++ "" = a.
Proof. induction a as [|x a IH]; [done | by rewrite string_app_cons, IH]. Qed.

#[export] Hint Rewrite string_app_nil_l string_app_cons string_app_assoc
  string_app_nil_r : cue.

Lemma render_app (l1 l2 : list string) :
  render (l1 ++ l2)%list = render l1 ++ render l2.
Proof.
  induction l1 as [|x l1 IH]; simpl; [done |].
  by rewrite IH; autorewrite with cue.
Qed.

Lemma writeln_render (ls : list string) (l : string) :
  writeln (render ls) l = render (ls ++ [l])%list.
Proof.
  unfold writeln. rewrite render_app. simpl. by autorewrite with cue.
Qed.

#[export] Hint Rewrite render_app : cue.

Lemma split_lines_go_line (cur : list Ascii.ascii) (l rest : string) :
  no_nl l = true ->
  split_lines_go cur (l ++ nl ++ rest) =
  String.string_of_list_ascii (rev cur ++ String.list_ascii_of_string l)%list :: split_lines_go [] rest.
Proof.
  revert cur. induction l as [|c l IH]; intros cur Hl.
  - by rewrite string_app_nil_l, app_nil_r.
  - simpl in Hl. apply andb_true_iff in Hl as [Hc Hl].
    apply negb_true_iff in Hc. rewrite string_app_cons. simpl.
    rewrite Hc, IH by done. simpl. by rewrite <- app_assoc.
Qed.

Lemma string_of_list_ascii_of_string (s : string) :
  String.string_of_list_ascii (String.list_ascii_of_string s) = s.
Proof. induction s as [|c s IH]; simpl; [done | by rewrite IH]. Qed.

(** Lines without line breaks are recovered from their text. *)
Lemma split_lines_render (ls : list string) :
  Forall (fun l => no_nl l = true) ls -> split_lines (render ls) = ls.
Proof.
  unfold split_lines. induction 1 as [|l ls Hl _ IH]; [done |].
  simpl. rewrite split_lines_go_line by done. simpl.
  by rewrite string_of_list_ascii_of_string, IH.
Qed.

Lemma no_nl_app (a b : string) : no_nl (a ++ b) = no_nl a && no_nl b.
Proof.
  induction a as [|c a IH]; [done |].
  rewrite string_app_cons. simpl. by rewrite IH, andb_assoc.
Qed.

#[export] Hint Rewrite no_nl_app : cue.

Lemma list_ascii_of_string_app (a b : string) :
  String.list_ascii_of_string (a ++ b) =
  String.list_ascii_of_string a ++@ String.list_ascii_of_string b.
Proof. induction a as [|c a IH]; [done |]. rewrite string_app_cons. simpl. by rewrite IH. Qed.

Lemma list_ascii_of_string_inj (a b : string) :
  String.list_ascii_of_string a = String.list_ascii_of_string b -> a = b.
Proof.
  intros H. by rewrite <- (string_of_list_ascii_of_string a), H, string_of_list_ascii_of_string.
Qed.

(** A common suffix cancels. *)
Lemma string_app_inv_r (a b c : string) : a ++ c = b ++ c -> a = b.
Proof.
  intros H. apply (f_equal String.list_ascii_of_string) in H.
  rewrite !list_ascii_of_string_app in H. apply app_inv_tail in H.
  by apply list_ascii_of_string_inj.
Qed.

(** A common prefix cancels. *)
Lemma string_app_inv_l (a b c : string) : c ++ a = c ++ b -> a = b.
Proof.
  induction c as [|x c IH]; [done |]. rewrite !string_app_cons. intros [= H]. auto.
Qed.

(** ** Tactics *)

(** Reduce through [outcome_bind] and [unwrap] once the scrutinees are
    known. *)
Ltac outcome_simpl :=
  repeat match goal with
  | H : ?o = Some _ |- context [unwrap ?o] => rewrite H
  | H : ?o = None |- context [unwrap ?o] => rewrite H
  | |- context [outcome_bind (Ok _) _] => cbn [outcome_bind]
  | |- context [outcome_bind (Panic _) _] => cbn [outcome_bind]
  | |- context [unwrap (Some _)] => cbn [unwrap]
  | |- context [unwrap None] => cbn [unwrap]
  end.

(** Linear arithmetic with division and remainder by constants. *)
Ltac zlia := unfold u32_max, u32_modulus in *; Z.to_euclidean_division_equations; lia.
