(* ===== verification/RustFmt.v ===== *)
(** * Rust formatting used by main.rs

    What the [format!]/[writeln!] directives of the code print: [{}] on
    an unsigned or a signed integer, the zero-padded [{:02}] and [{:+05}],
    [str::split] and [[String]::join].  The integer printer is the
    Standard Library's decimal printer; [parse_dec] reads a decimal back,
    and the round trips below are what [Timecode] and [Cuesheet] use to
    read numbers back out of printed text. *)

From Stdlib Require Import DecimalString DecimalN.
From S2P Require Import Prelude.

Open Scope string_scope.

(** [{}] on an unsigned integer ([u32], or the digits of a signed one). *)
Definition dec_N (n : N) : string := NilEmpty.string_of_uint (N.to_uint n).
Definition fmt_u (z : Z) : string := dec_N (Z.to_N z).

(** [{}] on a signed integer ([i32]: the year of a date). *)
Definition fmt_i (z : Z) : string :=
  if (z <? 0)%Z then "-" ++ fmt_u (- z) else fmt_u z.

(** [k] copies of the digit zero. *)
Fixpoint zeros (k : nat) : string :=
  match k with O => "" | S k' => String "0"%char (zeros k') end.

(** Zero padding of a digit string to width [w]. *)
Definition zero_pad (w : nat) (s : string) : string := zeros (w - String.length s) ++ s.

(** [{:02}] on an unsigned integer. *)
Definition fmt_u02 (z : Z) : string := zero_pad 2 (fmt_u z).

(** [{:+05}] on a signed integer: the sign always, then at least four
    digits (the width counts the sign). *)
Definition fmt_plus05 (z : Z) : string :=
  (if (z <? 0)%Z then "-" else "+") ++ zero_pad 4 (fmt_u (Z.abs z)).

(** [str::split(sep)]: the pieces between the separators, in order. *)
Fixpoint split_on_go (sep : Ascii.ascii) (cur : list Ascii.ascii) (s : string)
  : list string :=
  match s with
  | EmptyString => [String.string_of_list_ascii (rev cur)]
  | String c s' =>
      if Ascii.eqb c sep
      then String.string_of_list_ascii (rev cur) :: split_on_go sep [] s'
      else split_on_go sep (c :: cur) s'
  end.
Definition split_on (sep : Ascii.ascii) (s : string) : list string :=
  split_on_go sep [] s.

(** A decimal reader: the digits of [s] as a number, if [s] is a
    non-empty string of digits (leading zeros allowed). *)
Definition parse_dec (s : string) : option N :=
  match s with
  | EmptyString => None
  | _ => option_map N.of_uint (NilEmpty.uint_of_string s)
  end.

Definition parse_dec_Z (s : string) : option Z := option_map Z.of_N (parse_dec s).

(** ** Character classes *)

Definition is_digit (c : Ascii.ascii) : bool :=
  (48 <=? Ascii.nat_of_ascii c)%nat && (Ascii.nat_of_ascii c <=? 57)%nat.

Fixpoint all_digits (s : string) : bool :=
  match s with
  | EmptyString => true
  | String c s' => is_digit c && all_digits s'
  end.

(** [s] does not contain the character [c]. *)
Fixpoint lacks (c : Ascii.ascii) (s : string) : bool :=
  match s with
  | EmptyString => true
  | String c' s' => negb (Ascii.eqb c' c) && lacks c s'
  end.

(** ** Lemmas *)

Lemma all_digits_string_of_uint (d : Decimal.uint) :
  all_digits (NilEmpty.string_of_uint d) = true.
Proof. induction d; simpl; rewrite ?IHd; reflexivity. Qed.

Lemma all_digits_app (a b : string) :
  all_digits (a ++ b) = all_digits a && all_digits b.
Proof.
  induction a as [|c a IH]; [done |].
  rewrite string_app_cons. simpl. by rewrite IH, andb_assoc.
Qed.

Lemma all_digits_zeros (k : nat) : all_digits (zeros k) = true.
Proof. induction k; simpl; auto. Qed.

Lemma all_digits_fmt_u (z : Z) : all_digits (fmt_u z) = true.
Proof. apply all_digits_string_of_uint. Qed.

Lemma all_digits_fmt_u02 (z : Z) : all_digits (fmt_u02 z) = true.
Proof.
  unfold fmt_u02, zero_pad.
  by rewrite all_digits_app, all_digits_zeros, all_digits_fmt_u.
Qed.

#[export] Hint Resolve all_digits_fmt_u all_digits_fmt_u02 : cue.

(** A digit string lacks every non-digit, the line break and the colon
    among them. *)
Lemma all_digits_lacks (c : Ascii.ascii) (s : string) :
  is_digit c = false -> all_digits s = true -> lacks c s = true.
Proof.
  intros Hc. induction s as [|c' s IH]; simpl; [done |].
  intros [Hd Hs]%andb_true_iff. rewrite IH by done.
  destruct (Ascii.eqb_spec c' c); subst; [congruence | done].
Qed.

Lemma lacks_nl_no_nl (s : string) : lacks nl_char s = no_nl s.
Proof. induction s as [|c s IH]; simpl; [done | by rewrite IH]. Qed.

Lemma no_nl_all_digits (s : string) : all_digits s = true -> no_nl s = true.
Proof. intros H. rewrite <- lacks_nl_no_nl. by apply all_digits_lacks. Qed.

Lemma lacks_app (c : Ascii.ascii) (a b : string) :
  lacks c (a ++ b) = lacks c a && lacks c b.
Proof.
  induction a as [|c' a IH]; [done |].
  rewrite string_app_cons. simpl. by rewrite IH, andb_assoc.
Qed.

#[export] Hint Rewrite all_digits_app lacks_app : cue.

(** [k] leading zeros in front of a decimal. *)
Fixpoint lead0 (k : nat) (d : Decimal.uint) : Decimal.uint :=
  match k with O => d | S k' => Decimal.D0 (lead0 k' d) end.

Lemma zeros_string_of_uint (k : nat) (d : Decimal.uint) :
  zeros k ++ NilEmpty.string_of_uint d = NilEmpty.string_of_uint (lead0 k d).
Proof. induction k as [|k IH]; [done |]. simpl. by rewrite string_app_cons, IH. Qed.

Lemma of_uint_lead0 (k : nat) (d : Decimal.uint) :
  N.of_uint (lead0 k d) = N.of_uint d.
Proof.
  rewrite <- (Unsigned.of_uint_norm (lead0 k d)), <- (Unsigned.of_uint_norm d).
  f_equal. unfold Decimal.unorm. induction k as [|k IH]; [done |]. exact IH.
Qed.

Lemma to_uint_not_nil (n : N) : N.to_uint n <> Decimal.Nil.
Proof.
  intros H. pose proof (Unsigned.to_of (N.to_uint n)) as E.
  rewrite Unsigned.of_to, H in E. discriminate.
Qed.

Lemma lead0_not_nil (k : nat) (n : N) : lead0 k (N.to_uint n) <> Decimal.Nil.
Proof. destruct k; [apply to_uint_not_nil | discriminate]. Qed.

(** A number printed with any number of leading zeros reads back. *)
Lemma parse_dec_zeros (k : nat) (n : N) :
  parse_dec (zeros k ++ dec_N n) = Some n.
Proof.
  unfold dec_N. rewrite zeros_string_of_uint.
  pose proof (lead0_not_nil k n) as Hnn.
  assert (Hne : NilEmpty.string_of_uint (lead0 k (N.to_uint n)) <> "").
  { destruct (lead0 k (N.to_uint n)); [done | discriminate ..]. }
  unfold parse_dec.
  destruct (NilEmpty.string_of_uint (lead0 k (N.to_uint n))) eqn:E; [done |].
  rewrite <- E, NilEmpty.usu. simpl. by rewrite of_uint_lead0, Unsigned.of_to.
Qed.

Lemma parse_dec_dec_N (n : N) : parse_dec (dec_N n) = Some n.
Proof. exact (parse_dec_zeros 0 n). Qed.

(** [{:02}] reads back as the number it printed. *)
Lemma parse_dec_fmt_u02 (z : Z) :
  (0 <= z)%Z -> parse_dec_Z (fmt_u02 z) = Some z.
Proof.
  intros Hz. unfold parse_dec_Z, fmt_u02, zero_pad, fmt_u.
  rewrite parse_dec_zeros. simpl. by rewrite Z2N.id.
Qed.

Lemma split_on_go_piece (sep : Ascii.ascii) (cur : list Ascii.ascii) (a b : string) :
  lacks sep a = true ->
  split_on_go sep cur (a ++ String sep b) =
  String.string_of_list_ascii (rev cur ++ String.list_ascii_of_string a)%list
    :: split_on_go sep [] b.
Proof.
  revert cur. induction a as [|c a IH]; intros cur Ha.
  - rewrite string_app_nil_l. simpl. rewrite Ascii.eqb_refl, app_nil_r. done.
  - simpl in Ha. apply andb_true_iff in Ha as [Hc Ha]. apply negb_true_iff in Hc.
    rewrite string_app_cons. simpl. rewrite Hc, IH by done. simpl.
    by rewrite <- app_assoc.
Qed.

Lemma split_on_go_last (sep : Ascii.ascii) (cur : list Ascii.ascii) (a : string) :
  lacks sep a = true ->
  split_on_go sep cur a =
  [String.string_of_list_ascii (rev cur ++ String.list_ascii_of_string a)%list].
Proof.
  revert cur. induction a as [|c a IH]; intros cur Ha; simpl.
  - by rewrite app_nil_r.
  - simpl in Ha. apply andb_true_iff in Ha as [Hc Ha]. apply negb_true_iff in Hc.
    rewrite Hc, IH by done. simpl. by rewrite <- app_assoc.
Qed.
