(* ===== verification/Timecode.v ===== *)
(** * Timecode: [millisecond_to_mmssff] (main.rs 34-45)

    The converter from a millisecond offset to the cue-sheet timecode
    [MM:SS:FF] (75 frames per second).  The frame count is computed as
    the code computes it, in IEEE binary64: the primitive floats of Rocq
    ([PrimFloat.div]), [f64::round] (half away from zero) read off the
    exact value of the double, and Rust's saturating [as u32] cast.
    [(ms as f64) % 1000.0] is modelled by the integer remainder: the
    conversion of a [u32] to a double is exact, and so is the IEEE
    remainder of two integral doubles.

    Theorems: the float computation equals an exact integer formula
    ([frames_of_exact], checked by the kernel on every residue); the
    bounds of the fields; the overflow of the frame field to 75; the
    refinement against the abstract timecode [timecode_spec]; and the
    round trip through a timecode reader. *)

From Corelib Require Import PrimInt63 PrimFloat SpecFloat FloatOps.
From Stdlib Require Import Uint63Axioms.
From S2P Require Import Prelude RustFmt.

Open Scope string_scope.

Module Timecode.

Local Open Scope Z_scope.

(** ** The binary64 part *)

(** [const MILLISECONDS_PER_FRAME: f64 = 1000.0 / 75.0;] *)
Definition MILLISECONDS_PER_FRAME : float := (1000 / 75)%float.

(** [x as f64] for an integer of at most 53 bits. *)
Definition f64_of_int (z : Z) : float := PrimFloat.of_uint63 (Uint63Axioms.of_Z z).

(** The result of [f64::round]: an integer, NaN or an infinity. *)
Inductive rounded : Type :=
| RNum (z : Z)
| RNaN
| RInf (negative : bool).

(** The magnitude [m * 2^e] rounded to the nearest integer, halves up. *)
Definition round_magnitude (m : positive) (e : Z) : Z :=
  if (0 <=? e)%Z then Z.pos m * 2 ^ e
  else (2 * Z.pos m + 2 ^ (- e)) / 2 ^ (1 - e).

(** [f64::round]: to the nearest integer, halves away from zero. *)
Definition f64_round (x : float) : rounded :=
  match Prim2SF x with
  | S754_zero _ => RNum 0
  | S754_infinity s => RInf s
  | S754_nan => RNaN
  | S754_finite s m e =>
      let a := round_magnitude m e in RNum (if s then - a else a)
  end.

(** [as u32] on a double (saturating since Rust 1.45; NaN gives 0). *)
Definition as_u32 (r : rounded) : Z :=
  match r with
  | RNaN => 0
  | RInf true => 0
  | RInf false => u32_max
  | RNum z => Z.max 0 (Z.min z u32_max)
  end.

(** ** The converter *)

(** [let ms_part = (ms as f64) % 1000.0;] *)
Definition ms_part (ms : Z) : float := f64_of_int (ms mod 1000).

(** [let frames = (ms_part / MILLISECONDS_PER_FRAME).round() as u32;] *)
Definition frames_of (ms : Z) : Z :=
  as_u32 (f64_round (PrimFloat.div (ms_part ms) MILLISECONDS_PER_FRAME)).

(** [let seconds = (ms / 1000) % 60;] *)
Definition seconds_of (ms : Z) : Z := (ms / 1000) mod 60.

(** [let minutes = ms / 60000;] *)
Definition minutes_of (ms : Z) : Z := ms / 60000.

(** [format!("{minutes:02}:{seconds:02}:{frames:02}")] *)
Definition millisecond_to_mmssff (ms : Z) : string :=
  fmt_u02 (minutes_of ms) ++ ":" ++ fmt_u02 (seconds_of ms) ++ ":" ++
  fmt_u02 (frames_of ms).

(** ** Reference definitions *)

(** [r] milliseconds in CD frames, rounded to nearest, halves up:
    [round (r * 75 / 1000)]. *)
Definition round_frames (r : Z) : Z := (150 * r + 1000) / 2000.

(** The abstract timecode: the offset rounded to whole CD frames, written
    in canonical minutes, seconds (< 60) and frames (< 75). *)
Definition timecode_spec (ms : Z) : Z * Z * Z :=
  let f := round_frames ms in (f / 4500, (f / 75) mod 60, f mod 75).

(** The triple the code prints. *)
Definition mmssff (ms : Z) : Z * Z * Z := (minutes_of ms, seconds_of ms, frames_of ms).

(** The value, in frames, of a triple. *)
Definition triple_frames (t : Z * Z * Z) : Z :=
  let '(m, s, f) := t in 4500 * m + 75 * s + f.

(** A reader for [MM:SS:FF]. *)
Definition parse_timecode (s : string) : option (Z * Z * Z) :=
  match split_on ":"%char s with
  | [a; b; c] =>
      match parse_dec_Z a, parse_dec_Z b, parse_dec_Z c with
      | Some m, Some x, Some f => Some (m, x, f)
      | _, _, _ => None
      end
  | _ => None
  end.

(** ** The float computation on every residue *)

(** The frame count of a residue, the floats left in. *)
Definition frames_of_part (r : Z) : Z :=
  as_u32 (f64_round (PrimFloat.div (f64_of_int r) MILLISECONDS_PER_FRAME)).

Definition residues : list Z := map Z.of_nat (seq 0 1000)%nat.

Lemma frames_of_part_table :
  forallb (fun r => Z.eqb (frames_of_part r) (round_frames r)) residues = true.
Proof. vm_compute. reflexivity. Qed.

Lemma in_residues (r : Z) : (0 <= r < 1000)%Z -> In r residues.
Proof.
  intros Hr. unfold residues. apply in_map_iff. exists (Z.to_nat r).
  split; [lia |]. apply in_seq. lia.
Qed.

Lemma frames_of_part_exact (r : Z) :
  (0 <= r < 1000)%Z -> frames_of_part r = round_frames r.
Proof.
  intros Hr. pose proof frames_of_part_table as T.
  rewrite forallb_forall in T. apply Z.eqb_eq, T, in_residues, Hr.
Qed.

Lemma ms_mod_bound (ms : Z) : (0 <= ms mod 1000 < 1000)%Z.
Proof. apply Z.mod_pos_bound. lia. Qed.

(** The offset in frames is the whole seconds in frames plus the frames
    of the remainder. *)
Lemma round_frames_split (ms : Z) :
  round_frames ms = 75 * (ms / 1000) + round_frames (ms mod 1000).
Proof. unfold round_frames. zlia. Qed.

Lemma round_frames_part_bound (ms : Z) :
  0 <= round_frames (ms mod 1000) <= 75.
Proof. unfold round_frames. zlia. Qed.

(** C3: The frame count computed by the code in binary64
    ([(ms_part / MILLISECONDS_PER_FRAME).round() as u32]) equals, for
    every input, the exact integer rounding of [(ms mod 1000) * 75 / 1000]
    to the nearest integer with halves rounded up. *)
Theorem frames_of_exact (ms : Z) :
  frames_of ms = round_frames (ms mod 1000).
Proof. apply frames_of_part_exact, ms_mod_bound. Qed.

(** The converter in exact arithmetic, the floats gone. *)
Lemma mmssff_exact (ms : Z) :
  mmssff ms = (ms / 60000, (ms / 1000) mod 60, (150 * (ms mod 1000) + 1000) / 2000).
Proof. unfold mmssff. by rewrite frames_of_exact. Qed.

(** C8: For a non-negative offset the seconds field is below 60, the
    frame field is at most 75 (not below 75), and the minutes field is
    [ms / 60000]: for a [u32] offset at most 71582, so it may take five
    digits and is never truncated. *)
Theorem mmssff_bounds (ms : Z) :
  0 <= ms ->
  0 <= seconds_of ms < 60 /\ 0 <= frames_of ms <= 75 /\
  0 <= minutes_of ms /\ (is_u32 ms = true -> minutes_of ms <= 71582).
Proof.
  intros H. rewrite frames_of_exact. unfold seconds_of, minutes_of, round_frames, is_u32.
  rewrite andb_true_iff, Z.leb_le, Z.ltb_lt. zlia.
Qed.

(** C2: The frame field reaches 75, a value outside [00..74], exactly
    when the millisecond remainder is 994 or more: the code rounds
    without carrying into the seconds. *)
Theorem frames_of_overflow (ms : Z) :
  frames_of ms = 75 <-> 994 <= ms mod 1000.
Proof. rewrite frames_of_exact. unfold round_frames. zlia. Qed.

(** C9: The printed triple is worth the offset rounded to the nearest
    CD frame: [4500 * MM + 75 * SS + FF = round (ms * 75 / 1000)].  The
    value is right even when the frame field overflows. *)
Theorem mmssff_value (ms : Z) :
  0 <= ms -> triple_frames (mmssff ms) = round_frames ms.
Proof. intros H. rewrite mmssff_exact. unfold triple_frames, round_frames. zlia. Qed.

(** C4: Refinement of the abstract timecode: the code prints the
    canonical timecode of the offset (frames below 75, seconds below 60)
    exactly when the millisecond remainder is below 994. *)
Theorem mmssff_refines (ms : Z) :
  0 <= ms -> (mmssff ms = timecode_spec ms <-> ms mod 1000 < 994).
Proof.
  intros H. rewrite mmssff_exact. unfold timecode_spec, round_frames.
  split; [intros [= A B C]; zlia | intros; f_equal; [f_equal |]; zlia].
Qed.

Lemma lacks_colon_fmt_u02 (z : Z) : lacks ":"%char (fmt_u02 z) = true.
Proof. apply all_digits_lacks; [reflexivity | apply all_digits_fmt_u02]. Qed.

Lemma colon_app (b : string) : ":" ++ b = String ":"%char b.
Proof. reflexivity. Qed.

(** Three digit fields joined by colons split back into the three. *)
Lemma split_on_colons (a b c : string) :
  lacks ":"%char a = true -> lacks ":"%char b = true -> lacks ":"%char c = true ->
  split_on ":"%char (a ++ ":" ++ b ++ ":" ++ c) = [a; b; c].
Proof.
  intros Ha Hb Hc. unfold split_on. rewrite !colon_app.
  rewrite split_on_go_piece, split_on_go_piece, split_on_go_last by done.
  simpl. by rewrite !string_of_list_ascii_of_string.
Qed.

(** C15: Round trip: reading the printed timecode back as three
    colon-separated decimals gives the minutes, seconds and frames the
    code computed, for every non-negative offset. *)
Theorem parse_millisecond_to_mmssff (ms : Z) :
  0 <= ms -> parse_timecode (millisecond_to_mmssff ms) = Some (mmssff ms).
Proof.
  intros H. destruct (mmssff_bounds ms H) as (Hs & Hf & Hm & _).
  unfold parse_timecode, millisecond_to_mmssff.
  rewrite split_on_colons by apply lacks_colon_fmt_u02.
  rewrite (parse_dec_fmt_u02 _ Hm), (parse_dec_fmt_u02 _ (proj1 Hs)), (parse_dec_fmt_u02 _ (proj1 Hf)).
  reflexivity.
Qed.

Lemma parse_millisecond_to_mmssff_witness :
  0 <= 3599999 /\ parse_timecode (millisecond_to_mmssff 3599999) = Some (59, 59, 75).
Proof.
  split; [lia |]. rewrite (parse_millisecond_to_mmssff 3599999) by lia.
  vm_compute. reflexivity.
Defined.

Lemma mmssff_bounds_witness :
  0 <= 4294967295 /\ minutes_of 4294967295 <= 71582 /\ frames_of 4294967295 <= 75.
Proof.
  destruct (mmssff_bounds 4294967295) as (_ & [_ Hf] & _ & Hm); [lia |].
  split; [lia | split; [apply Hm; reflexivity | exact Hf]].
Defined.

Lemma mmssff_value_witness :
  0 <= 59999 /\ triple_frames (mmssff 59999) = 4500.
Proof. split; [lia |]. rewrite mmssff_value by lia. reflexivity. Defined.

Lemma mmssff_refines_witness :
  0 <= 59999 /\ mmssff 59999 <> timecode_spec 59999.
Proof.
  split; [lia |]. intros H. apply (mmssff_refines 59999) in H; [| lia].
  vm_compute in H. discriminate.
Defined.

(** The spec's examples, and the overflow on 999 ms. *)
Example millisecond_to_mmssff_0 : millisecond_to_mmssff 0 = "00:00:00".
Proof. vm_compute. reflexivity. Qed.

Example millisecond_to_mmssff_60000 : millisecond_to_mmssff 60000 = "01:00:00".
Proof. vm_compute. reflexivity. Qed.

Example millisecond_to_mmssff_999 : millisecond_to_mmssff 999 = "00:00:75".
Proof. vm_compute. reflexivity. Qed.

End Timecode.
