(* ===== verification/Metadata.v ===== *)
(** * Metadata: the release data and the header block of a cue sheet

    The fields of the musicbrainz_rs entities that [main] reads, one
    Module per entity with the entity's field names; chrono's
    [NaiveDate] with its [ordinal] and its [Display]; [join_artists]
    (main.rs 27-32); and the release header block that [main] writes into
    [release_cuesheet] (main.rs 73-110), as the sequence of lines its
    [writeln!] calls append.  The header is one list of lines per
    [if let] block of the code, concatenated in the code's order.

    Theorems: the date rule (year only exactly on the first day of a
    year); the genre line of an empty list; the label lines with their
    duplicates; [join_artists] as name and join phrase per credit, in
    order, with no separator of its own. *)

From S2P Require Import Prelude RustFmt.

Open Scope string_scope.

(** ** The entities *)

Module ArtistCredit.
Record t := mk { name : string; joinphrase : option string }.
End ArtistCredit.

Module Genre.
Record t := mk { name : string }.
End Genre.

(** chrono's [NaiveDate], by its year, month and day. *)
Module NaiveDate.
Record t := mk { year : Z; month : Z; day : Z }.
End NaiveDate.

Module ReleaseGroup.
Record t := mk {
    genres : option (list Genre.t);
    first_release_date : option NaiveDate.t }.
End ReleaseGroup.

Module Label.
Record t := mk { name : string }.
End Label.

Module LabelInfo.
Record t := mk { label : option Label.t }.
End LabelInfo.

Module Recording.
Record t := mk { artist_credit : option (list ArtistCredit.t) }.
End Recording.

Module Track.
Record t := mk {
    position : Z;
    title : string;
    recording : Recording.t;
    length : option Z }.
End Track.

Module Medium.
Record t := mk {
    format : option string;
    position : option Z;
    title : option string;
    tracks : option (list Track.t) }.
End Medium.

Module Release.
Record t := mk {
    id : string;
    title : string;
    artist_credit : option (list ArtistCredit.t);
    release_group : option ReleaseGroup.t;
    label_info : option (list LabelInfo.t);
    media : option (list Medium.t) }.
End Release.

(** ** Text helpers *)

Definition quote_char : Ascii.ascii := Ascii.ascii_of_nat 34.

(** A value between double quotes, as the code writes it (no
    escaping). *)
Definition quoted (s : string) : string :=
  String quote_char EmptyString ++ s ++ String quote_char EmptyString.

(** ** join_artists (main.rs 27-32) *)

Definition join_artists (artists : list ArtistCredit.t) : string :=
  String.concat ""
    (map (fun a => ArtistCredit.name a ++ unwrap_or_default_str (ArtistCredit.joinphrase a))
       artists).

(** ** chrono's NaiveDate *)

Module Date.
  Local Open Scope Z_scope.

Definition is_leap (y : Z) : bool :=
    ((y mod 4 =? 0) && negb (y mod 100 =? 0)) || (y mod 400 =? 0).

Definition days_in_month (y m : Z) : Z :=
    if (m =? 2) then (if is_leap y then 29 else 28)
    else if (m =? 4) || (m =? 6) || (m =? 9) || (m =? 11) then 30 else 31.

  (** Days of the months before [m]. *)
Definition days_before (y : Z) (m : Z) : Z :=
    fold_right Z.add 0
      (map (fun k => days_in_month y (Z.of_nat k)) (seq 1 (Z.to_nat (m - 1)))).

  (** A date that chrono can represent. *)
Definition valid (d : NaiveDate.t) : bool :=
    (1 <=? NaiveDate.month d) && (NaiveDate.month d <=? 12) &&
    (1 <=? NaiveDate.day d) &&
    (NaiveDate.day d <=? days_in_month (NaiveDate.year d) (NaiveDate.month d)).

  (** [Datelike::ordinal]: the day of the year, from 1. *)
Definition ordinal (d : NaiveDate.t) : Z :=
    days_before (NaiveDate.year d) (NaiveDate.month d) + NaiveDate.day d.

  (** [NaiveDate]'s [Display]: [YYYY-MM-DD], the year with four digits
      when it lies in 0..9999 and with a sign and at least four digits
      otherwise. *)
Definition to_string (d : NaiveDate.t) : string :=
    let y := NaiveDate.year d in
    ((if ((0 <=? y) && (y <=? 9999))%Z then zero_pad 4 (fmt_u y) else fmt_plus05 y)
     ++ "-" ++ fmt_u02 (NaiveDate.month d) ++ "-" ++ fmt_u02 (NaiveDate.day d))%string.

End Date.

(** ** The release header block (main.rs 76-110) *)

Definition genre_names (genres : list Genre.t) : string :=
  String.concat "; " (map Genre.name genres).

(** [REM DATE]: the year alone on the first day of a year, else the full
    date (main.rs 88-97). *)
Definition date_text (d : NaiveDate.t) : string :=
  if (Date.ordinal d =? 1)%Z then fmt_i (NaiveDate.year d) else Date.to_string d.

(** main.rs 76-78 *)
Definition performer_lines (r : Release.t) : list string :=
  match Release.artist_credit r with
  | Some artists => ["PERFORMER " ++ quoted (join_artists artists)]
  | None => []
  end.

(** main.rs 80-99 *)
Definition release_group_lines (r : Release.t) : list string :=
  match Release.release_group r with
  | Some rg =>
      app
        (match ReleaseGroup.genres rg with
         | Some genres => ["REM GENRE " ++ genre_names genres]
         | None => []
         end)
        (match ReleaseGroup.first_release_date rg with
         | Some d => ["REM DATE " ++ date_text d]
         | None => []
         end)
  | None => []
  end.

(** The label names the loop of main.rs 102-106 writes, in order:
    [filter_map(|li| li.label)], then the non-empty names. *)
Definition label_names (infos : list LabelInfo.t) : list string :=
  List.filter (fun n => negb (String.eqb n ""))
    (map Label.name (omap LabelInfo.label infos)).

(** The [REM COMMENT] line of a label name (main.rs 104). *)
Definition comment_line (n : string) : string := "REM COMMENT " ++ quoted n.

(** main.rs 101-107 *)
Definition label_lines (r : Release.t) : list string :=
  match Release.label_info r with
  | Some infos => map comment_line (label_names infos)
  | None => []
  end.

Definition file_line : string := "FILE " ++ quoted "CDImage.flac" ++ " WAVE".

(** The lines of [release_cuesheet] (main.rs 73-110), in the order of the
    code's [writeln!] calls. *)
Definition release_header (r : Release.t) : list string :=
  performer_lines r ++@ release_group_lines r ++@ label_lines r ++@
  ["REM MUSICBRAINZ_ALBUM_ID " ++ Release.id r; file_line].

(** [release_cuesheet] itself. *)
Definition release_cuesheet (r : Release.t) : string := render (release_header r).

(** ** Lemmas *)




Example join_artists_example :
  join_artists [ArtistCredit.mk "A" (Some " feat. "); ArtistCredit.mk "B" None] = "A feat. B".
Proof. reflexivity. Qed.

Section DateLemmas.
  Local Open Scope Z_scope.

Lemma days_in_month_pos (y m : Z) : 28 <= Date.days_in_month y m.
  Proof.
    unfold Date.days_in_month.
    repeat match goal with |- context [if ?b then _ else _] => destruct b end; lia.
  Qed.

Lemma sum_days_nonneg (y : Z) (l : list nat) :
    0 <= fold_right Z.add 0 (map (fun k => Date.days_in_month y (Z.of_nat k)) l).
  Proof.
    induction l as [|k l IH]; simpl; [lia |]. pose proof (days_in_month_pos y (Z.of_nat k)). lia.
  Qed.

  (** January comes first: no day precedes it, and a month after it
      follows at least 31 days. *)
Lemma days_before_cases (y m : Z) :
    1 <= m -> (m = 1 /\ Date.days_before y m = 0) \/ (1 < m /\ 31 <= Date.days_before y m).
  Proof.
    intros Hm. unfold Date.days_before.
    destruct (Z.eq_dec m 1) as [->|Hne]; [left; done | right].
    replace (Z.to_nat (m - 1)) with (S (Z.to_nat (m - 2))) by lia.
    pose proof (sum_days_nonneg y (seq 2 (Z.to_nat (m - 2)))).
    cbn [seq map fold_right].
    change (Date.days_in_month y (Z.of_nat 1)) with 31. split; lia.
  Qed.

  (** For a date chrono accepts, the ordinal is 1 exactly on January 1. *)
Lemma ordinal_one (d : NaiveDate.t) :
    Date.valid d = true ->
    (Date.ordinal d = 1 <-> NaiveDate.month d = 1 /\ NaiveDate.day d = 1).
  Proof.
    unfold Date.valid, Date.ordinal. rewrite !andb_true_iff, !Z.leb_le.
    intros [[[Hm1 Hm2] Hd1] Hd2].
    destruct (days_before_cases (NaiveDate.year d) (NaiveDate.month d) Hm1) as [[-> ->]|[? ?]]; lia.
  Qed.
End DateLemmas.

(** C11: The [REM DATE] value of a valid date is the year alone when the
    date is January 1, and the full [YYYY-MM-DD] date on every other day:
    the code's test [ordinal() == 1] is the test for January 1. *)
Theorem date_text_rule (d : NaiveDate.t) :
  Date.valid d = true ->
  date_text d =
  if (NaiveDate.month d =? 1)%Z && (NaiveDate.day d =? 1)%Z
  then fmt_i (NaiveDate.year d) else Date.to_string d.
Proof.
  intros Hv. unfold date_text. pose proof (ordinal_one d Hv) as E.
  destruct (Z.eqb_spec (Date.ordinal d) 1) as [H|H];
  destruct (Z.eqb_spec (NaiveDate.month d) 1); destruct (Z.eqb_spec (NaiveDate.day d) 1);
  simpl; tauto.
Qed.

Lemma date_text_rule_witness :
  Date.valid (NaiveDate.mk 1999 1 1) = true /\ date_text (NaiveDate.mk 1999 1 1) = "1999".
Proof.
  split; [reflexivity |]. rewrite (date_text_rule (NaiveDate.mk 1999 1 1)) by reflexivity.
  vm_compute. reflexivity.
Defined.

(** C13: The genre line depends on the presence of the genre list, not
    on its contents: a release group whose genre list is present but
    empty gets the line [REM GENRE ] with an empty value. *)
Theorem genre_line_empty (r : Release.t) (rg : ReleaseGroup.t) :
  Release.release_group r = Some rg -> ReleaseGroup.genres rg = Some [] ->
  In "REM GENRE " (release_header r).
Proof.
  intros Hr Hg. unfold release_header. rewrite !in_app_iff.
  right; left. unfold release_group_lines. rewrite Hr, Hg.
  simpl. left. by rewrite string_app_nil_r.
Qed.

Lemma genre_line_empty_witness :
  In "REM GENRE "
    (release_header (Release.mk "id" "t" None (Some (ReleaseGroup.mk (Some []) None)) None None)).
Proof. apply (genre_line_empty _ (ReleaseGroup.mk (Some []) None)); reflexivity. Defined.

Lemma comment_line_inj (a b : string) : comment_line a = comment_line b -> a = b.
Proof.
  unfold comment_line, quoted. intros H.
  apply string_app_inv_l in H. rewrite !string_app_cons, !string_app_nil_l in H.
  injection H as H. by apply string_app_inv_r in H.
Qed.

Lemma label_names_cons (name : string) (infos : list LabelInfo.t) :
  label_names (LabelInfo.mk (Some (Label.mk name)) :: infos) =
  if String.eqb name "" then label_names infos else name :: label_names infos.
Proof. unfold label_names. simpl. by destruct (String.eqb name ""). Qed.

(** Infos whose label is named [n]. *)
Definition label_named (n : string) (li : LabelInfo.t) : bool :=
  match LabelInfo.label li with
  | Some l => String.eqb (Label.name l) n
  | None => false
  end.

(** C12: For a non-empty label name [n], the header has as many
    [REM COMMENT "n"] lines as the release has label infos naming [n]:
    every label info is written, in order, and duplicates are not merged. *)
Theorem label_comment_count (r : Release.t) (infos : list LabelInfo.t) (n : string) :
  Release.label_info r = Some infos -> n <> "" ->
  count_occ String.string_dec (label_lines r) (comment_line n) =
  length (List.filter (label_named n) infos).
Proof.
  intros Hr Hn. unfold label_lines. rewrite Hr. clear Hr.
  induction infos as [|[[[name]|]] infos IH]; [done | | exact IH].
  rewrite label_names_cons. unfold label_named at 1.
  cbn [LabelInfo.label Label.name List.filter].
  destruct (String.eqb_spec name "") as [He|He];
  destruct (String.eqb_spec name n) as [Hn'|Hn']; try congruence; [exact IH | |].
  - rewrite map_cons, count_occ_cons_eq by congruence. simpl. by rewrite IH.
  - rewrite map_cons, count_occ_cons_neq; [exact IH |].
    intros C. apply comment_line_inj in C. congruence.
Qed.

Lemma label_comment_count_witness :
  count_occ String.string_dec
    (label_lines (Release.mk "id" "t" None None
       (Some [LabelInfo.mk (Some (Label.mk "X")); LabelInfo.mk None;
              LabelInfo.mk (Some (Label.mk "X"))]) None))
    (comment_line "X") = 2%nat.
Proof.
  rewrite (label_comment_count _ [LabelInfo.mk (Some (Label.mk "X")); LabelInfo.mk None;
              LabelInfo.mk (Some (Label.mk "X"))]); [reflexivity | reflexivity | discriminate].
Defined.
