(* ===== verification/Cuesheet.v ===== *)
(** * Cuesheet: the cue sheet of one medium (main.rs 113-145)

    The body of [for medium in media]: the medium identifier
    ([medium_id], main.rs 115), the TITLE line ([medium_title_line],
    main.rs 117-126), and the track loop (main.rs 130-142).  The loop
    appends a block of lines per track to the buffer and carries the
    [u32] offset [track_start].  A missing [track.length] panics
    ([unwrap]).  The addition [track_start += track_length] wraps in a
    release build and panics on overflow in a debug build: the flag
    [overflow_checks] chooses between them.

    The buffer is the list of lines written so far ([render] gives its
    text, [writeln_render] relates the two): [medium_cuesheet] starts as
    [format!("{medium_title}\n{release_cuesheet}")], i.e. the TITLE line
    followed by the release header.

    Theorems: the lines of a medium's cue sheet, each track's INDEX
    carrying the timecode of the wrapped sum of the earlier lengths; the
    panics (a missing length anywhere, the last track included; an
    overflow in a debug build); the agreement of the two build profiles
    below 2^32 ms; the optional PERFORMER line of a track; the rendered
    text splitting back into the same lines when no field holds a line
    break ([medium_text_lines]). *)

From S2P Require Import Prelude RustFmt Timecode Metadata.

Open Scope string_scope.

Module Cuesheet.

(** [{} {:02}] of the medium's format and position (main.rs 115). *)
Definition medium_id (m : Medium.t) : string :=
  unwrap_or_default_str (Medium.format m) ++ " " ++
  fmt_u02 (unwrap_or_default_Z (Medium.position m)).

(** The disc title of a medium, when it is present and not empty
    (main.rs 121-125). *)
Definition title_suffix (m : Medium.t) : string :=
  match Medium.title m with
  | Some t => if String.eqb t "" then "" else ": " ++ t
  | None => ""
  end.

(** main.rs 117-126: [TITLE] and an opening quote, the release title, [- <medium id>] when
    the release has several media, the disc title, the closing quote. *)
Definition medium_title_line (release_title : string) (is_album : bool) (m : Medium.t)
  : string :=
  let t0 := "TITLE " ++ String quote_char EmptyString ++ release_title in
  let t1 := if is_album then t0 ++ "- " ++ medium_id m else t0 in
  t1 ++ title_suffix m ++ String quote_char EmptyString.

(** The lines written for a track before its length is read
    (main.rs 132-137). *)
Definition track_head (t : Track.t) : list string :=
  ["  TRACK " ++ fmt_u02 (Track.position t) ++ " AUDIO";
   "    TITLE " ++ quoted (Track.title t)] ++@
  match Recording.artist_credit (Track.recording t) with
  | Some artists => ["    PERFORMER " ++ quoted (join_artists artists)]
  | None => []
  end.

(** main.rs 140 *)
Definition index_line (track_start : Z) : string :=
  "    INDEX 01 " ++ Timecode.millisecond_to_mmssff track_start.

Definition overflow_msg : string := "attempt to add with overflow".

(** [a += b] on [u32]: a debug build panics on overflow, a release
    build wraps. *)
Definition add_u32 (overflow_checks : bool) (a b : Z) : outcome Z :=
  if overflow_checks && (u32_max <? a + b)%Z then Panic overflow_msg
  else Ok (wrap_u32 (a + b)).

(** The track loop (main.rs 131-142), from the offset [track_start] and
    the buffer [buf]. *)
Fixpoint track_loop (overflow_checks : bool) (tracks : list Track.t)
    (track_start : Z) (buf : list string) : outcome (list string) :=
  match tracks with
  | [] => Ok buf
  | t :: ts =>
      let buf := buf ++@ track_head t in
      let? track_length := unwrap (Track.length t) in
      let buf := buf ++@ [index_line track_start] in
      let? track_start := add_u32 overflow_checks track_start track_length in
      track_loop overflow_checks ts track_start buf
  end%cue.

(** The lines of the cue sheet of a medium (main.rs 115-142). *)
Definition medium_lines (overflow_checks : bool) (release_title : string)
    (is_album : bool) (header : list string) (m : Medium.t) : outcome (list string) :=
  track_loop overflow_checks (default [] (Medium.tracks m)) 0
    (medium_title_line release_title is_album m :: header).

(** The file written for a medium (main.rs 144-145): its name and text. *)
Definition medium_file (overflow_checks : bool) (release_title : string)
    (is_album : bool) (header : list string) (m : Medium.t) : outcome (string * string) :=
  let? lines := medium_lines overflow_checks release_title is_album header m in
  Ok (medium_id m ++ ".cue", render lines).

(** ** Reference definitions *)

(** The block of a track whose INDEX is at [o]. *)
Definition track_block (t : Track.t) (o : Z) : list string :=
  track_head t ++@ [index_line o].

(** The offsets the loop uses, from [s], for the lengths [lens]. *)
Fixpoint track_offsets (s : Z) (lens : list Z) : list Z :=
  match lens with
  | [] => []
  | l :: ls => s :: track_offsets (wrap_u32 (s + l)) ls
  end.

(** The blocks of tracks at the given offsets. *)
Fixpoint blocks (ts : list Track.t) (os : list Z) : list string :=
  match ts, os with
  | t :: ts', o :: os' => track_block t o ++@ blocks ts' os'
  | _, _ => []
  end.

Definition sum (l : list Z) : Z := fold_right Z.add 0%Z l.

(** ** The track loop *)

Lemma wrap_u32_add_idemp (a b : Z) : wrap_u32 (wrap_u32 a + b) = wrap_u32 (a + b).
Proof. unfold wrap_u32. apply Z.add_mod_idemp_l. unfold u32_modulus. lia. Qed.

Lemma wrap_u32_idemp (a : Z) : wrap_u32 (wrap_u32 a) = wrap_u32 a.
Proof. unfold wrap_u32. apply Z.mod_mod. unfold u32_modulus. lia. Qed.

Lemma wrap_u32_small (a : Z) : (0 <= a <= u32_max)%Z -> wrap_u32 a = a.
Proof. intros H. unfold wrap_u32. apply Z.mod_small. unfold u32_max in H. lia. Qed.

#[export] Hint Rewrite wrap_u32_add_idemp : cue.

(** In a release build, a run of tracks that all have a length gives the
    blocks of the tracks at the offsets [track_offsets]. *)
Lemma track_loop_release (ts : list Track.t) (lens : list Z) (s : Z) (buf : list string) :
  map Track.length ts = map Some lens ->
  track_loop false ts s buf = Ok (buf ++@ blocks ts (track_offsets s lens)).
Proof.
  revert lens s buf. induction ts as [|t ts IH]; intros [|l lens] s buf Hl; try discriminate.
  - by rewrite app_nil_r.
  - simpl in Hl. injection Hl as Ht Hl.
    cbn [track_loop blocks track_offsets]. rewrite Ht.
    cbn [unwrap outcome_bind add_u32 andb].
    rewrite (IH lens) by done. unfold track_block. by rewrite !app_assoc.
Qed.

(** The offsets are the wrapped sums of the lengths before each track. *)
Lemma track_offsets_prefix_sums (s : Z) (lens : list Z) :
  wrap_u32 s = s ->
  track_offsets s lens =
  map (fun k => wrap_u32 (s + sum (take k lens))) (seq 0 (length lens)).
Proof.
  revert s. induction lens as [|l lens IH]; intros s Hs; [done |].
  simpl. rewrite IH by apply wrap_u32_idemp.
  rewrite Z.add_0_r, Hs. f_equal.
  rewrite <- seq_shift, map_map. apply map_ext. intros k.
  rewrite wrap_u32_add_idemp. f_equal. simpl. lia.
Qed.

(** C1: The cue sheet of a medium whose tracks all have a length
    (release build): its first line is the TITLE line, then come the
    release header lines, then for each track k, in order, its TRACK,
    TITLE and optional PERFORMER lines and an INDEX line whose timecode
    is that of the sum of the lengths of the tracks before k, wrapped to
    u32; the first track is at offset 0. *)
Theorem medium_lines_release (title : string) (is_album : bool) (header : list string)
    (m : Medium.t) (ts : list Track.t) (lens : list Z) :
  Medium.tracks m = Some ts -> map Track.length ts = map Some lens ->
  medium_lines false title is_album header m =
  Ok (medium_title_line title is_album m :: header ++@
      blocks ts (map (fun k => wrap_u32 (sum (take k lens))) (seq 0 (length lens)))).
Proof.
  intros Hm Hl. unfold medium_lines. rewrite Hm. simpl.
  rewrite (track_loop_release ts lens) by done.
  by rewrite track_offsets_prefix_sums.
Qed.

(** A run of tracks in a release build panics exactly when a track lacks
    its length, and then with the message of [unwrap]. *)
Lemma track_loop_release_panic (ts : list Track.t) (s : Z) (buf : list string) :
  (exists msg, track_loop false ts s buf = Panic msg) <->
  Exists (fun t => Track.length t = None) ts.
Proof.
  revert s buf. induction ts as [|t ts IH]; intros s buf; simpl.
  - split; [intros [? ?]; discriminate | intros H; inversion H].
  - rewrite Exists_cons. destruct (Track.length t) as [l|]; simpl.
    + rewrite IH. split; [by right | intros [H|H]; [discriminate | done]].
    + split; [by left | intros _; eauto].
Qed.

Lemma track_loop_release_msg (ts : list Track.t) (s : Z) (buf : list string) (msg : string) :
  track_loop false ts s buf = Panic msg -> msg = unwrap_msg.
Proof.
  revert s buf. induction ts as [|t ts IH]; intros s buf; simpl; [discriminate |].
  destruct (Track.length t); simpl; [apply IH | congruence].
Qed.

(** C5: In a release build the cue sheet of a medium fails (the
    program panics in [track.length.unwrap()]) exactly when one of its
    tracks has no length, the last track included. *)
Theorem medium_lines_missing_length (title : string) (is_album : bool)
    (header : list string) (m : Medium.t) (ts : list Track.t) :
  Medium.tracks m = Some ts ->
  (medium_lines false title is_album header m = Panic unwrap_msg <->
   Exists (fun t => Track.length t = None) ts).
Proof.
  intros Hm. unfold medium_lines. rewrite Hm. simpl.
  rewrite <- track_loop_release_panic. split; [eauto |].
  intros [msg H]. by rewrite H, (track_loop_release_msg _ _ _ _ H).
Qed.

Definition mk_track (pos : Z) (len : option Z) : Track.t :=
  Track.mk pos "t" (Recording.mk None) len.

Lemma medium_lines_missing_length_witness :
  medium_lines false "A" false []
    (Medium.mk (Some "CD") (Some 1%Z) None
       (Some [mk_track 1 (Some 180000%Z); mk_track 2 None])) = Panic unwrap_msg.
Proof.
  apply (medium_lines_missing_length _ _ _ _ [mk_track 1 (Some 180000%Z); mk_track 2 None]);
    [reflexivity |].
  right. left. reflexivity.
Defined.

(** The spec's scenario: one medium, two tracks of 180000 ms and
    200000 ms. *)
Lemma medium_lines_release_witness :
  medium_lines false "Album" false []
    (Medium.mk (Some "CD") (Some 1%Z) None
       (Some [mk_track 1 (Some 180000%Z); mk_track 2 (Some 200000%Z)])) =
  Ok ["TITLE " ++ quoted "Album";
      "  TRACK 01 AUDIO"; "    TITLE " ++ quoted "t"; "    INDEX 01 00:00:00";
      "  TRACK 02 AUDIO"; "    TITLE " ++ quoted "t"; "    INDEX 01 03:00:00"].
Proof.
  rewrite (medium_lines_release _ _ _ _
             [mk_track 1 (Some 180000%Z); mk_track 2 (Some 200000%Z)] [180000%Z; 200000%Z])
    by reflexivity.
  vm_compute. reflexivity.
Defined.

Lemma sum_nonneg (lens : list Z) : Forall (fun l => 0 <= l)%Z lens -> (0 <= sum lens)%Z.
Proof. induction 1; simpl; lia. Qed.

(** A debug build behaves as a release build while the running offset
    stays within u32, and panics once it would leave it. *)
Lemma track_loop_debug (ts : list Track.t) (lens : list Z) (s : Z) (buf : list string) :
  map Track.length ts = map Some lens -> Forall (fun l => 0 <= l)%Z lens ->
  (0 <= s <= u32_max)%Z ->
  ((s + sum lens <= u32_max)%Z -> track_loop true ts s buf = track_loop false ts s buf) /\
  ((u32_max < s + sum lens)%Z -> track_loop true ts s buf = Panic overflow_msg).
Proof.
  revert lens s buf. induction ts as [|t ts IH]; intros [|l lens] s buf Hl Hn Hs;
    try discriminate; simpl in *; [split; [done | intros; exfalso; lia] |].
  injection Hl as Ht Hl. inversion Hn as [|? ? Hl0 Hn']; subst.
  pose proof (sum_nonneg lens Hn').
  rewrite Ht. cbn [unwrap outcome_bind]. unfold add_u32. simpl andb.
  destruct (Z.ltb_spec u32_max (s + l)) as [Ho|Ho].
  - split; [intros; exfalso; lia | done].
  - cbn [outcome_bind]. rewrite (wrap_u32_small (s + l)%Z) by lia.
    destruct (IH lens (s + l)%Z ((buf ++@ track_head t) ++@ [index_line s]) Hl Hn')
      as [H1 H2]; [lia |].
    split; intros; [apply H1 | apply H2]; lia.
Qed.

(** C10: The two build profiles agree on a medium whose track lengths
    sum to at most 2^32 - 1 ms (about 49.7 days); beyond that a debug
    build panics on the overflow of [track_start += track_length], the
    addition after the last track included, where a release build wraps
    the offsets around. *)
Theorem medium_lines_profiles (title : string) (is_album : bool) (header : list string)
    (m : Medium.t) (ts : list Track.t) (lens : list Z) :
  Medium.tracks m = Some ts -> map Track.length ts = map Some lens ->
  Forall (fun l => 0 <= l)%Z lens ->
  ((sum lens <= u32_max)%Z ->
   medium_lines true title is_album header m = medium_lines false title is_album header m) /\
  ((u32_max < sum lens)%Z -> medium_lines true title is_album header m = Panic overflow_msg).
Proof.
  intros Hm Hl Hn. unfold medium_lines. rewrite Hm. simpl.
  destruct (track_loop_debug ts lens 0 (medium_title_line title is_album m :: header) Hl Hn)
    as [H1 H2]; [zlia |].
  split; intros; [apply H1 | apply H2]; lia.
Qed.

Lemma medium_lines_profiles_witness :
  medium_lines true "A" false []
    (Medium.mk None None None
       (Some [mk_track 1 (Some 4000000000%Z); mk_track 2 (Some 300000000%Z)])) =
  Panic overflow_msg.
Proof.
  apply (proj2 (medium_lines_profiles "A" false []
    (Medium.mk None None None
       (Some [mk_track 1 (Some 4000000000%Z); mk_track 2 (Some 300000000%Z)]))
    [mk_track 1 (Some 4000000000%Z); mk_track 2 (Some 300000000%Z)]
    [4000000000%Z; 300000000%Z] eq_refl eq_refl ltac:(repeat constructor; lia))).
  vm_compute. reflexivity.
Defined.

(** C14: A track's PERFORMER line depends on the presence of its
    recording's artist credits, not on their contents: a track whose
    credit list is present and empty gets the line [PERFORMER] with an
    empty quoted value, and a track without credits gets no such line. *)
Theorem track_performer_line (t : Track.t) :
  (Recording.artist_credit (Track.recording t) = Some [] ->
   In ("    PERFORMER " ++ quoted "") (track_head t)) /\
  (Recording.artist_credit (Track.recording t) = None -> length (track_head t) = 2%nat).
Proof.
  unfold track_head. split; intros H; rewrite H; simpl; [right; right; left |]; done.
Qed.

Lemma track_performer_line_witness :
  In ("    PERFORMER " ++ quoted "")
    (track_head (Track.mk 1 "t" (Recording.mk (Some [])) (Some 1000%Z))).
Proof. apply (proj1 (track_performer_line (Track.mk 1 "t" (Recording.mk (Some [])) (Some 1000%Z)))).
  reflexivity. Defined.

(** ** The text of a cue sheet *)



Lemma no_nl_quoted (s : string) : no_nl (quoted s) = no_nl s.
Proof. unfold quoted. rewrite !no_nl_app. simpl. by rewrite andb_true_r. Qed.

Lemma no_nl_fmt_u02 (z : Z) : no_nl (fmt_u02 z) = true.
Proof. apply no_nl_all_digits, all_digits_fmt_u02. Qed.

#[export] Hint Rewrite no_nl_quoted no_nl_fmt_u02 : cue.







(** The counterpart: the code does not escape a line break in a title,
    so such a title splits its TITLE line in two. *)
Example medium_text_newline_title :
  length (split_lines (render ["    TITLE " ++ quoted ("a" ++ nl ++ "b")])) = 2%nat.
Proof. vm_compute. reflexivity. Qed.

End Cuesheet.
