(* ===== verification/Program.v ===== *)
(** * Program: [main] and [download_cover_art] (main.rs 47-170)

    The whole run of the program, as a computation on a world: the files
    written (a [gmap] from paths to contents), the directories that
    exist, and the log of what the run did, in order (directory
    creations, file writes, lines on standard error, one-second sleeps).
    A Rust panic stops the computation but keeps the world as it was at
    that point: files written before the panic stay written.  [M] is this
    state-and-panic monad, with the notation [let* x := c in k].

    The network is an oracle, a section variable: [fetch_release] for
    [Release::fetch()...execute()], [fetch_coverart] for
    [Release::fetch_coverart()...execute()] and [http_get] for
    [reqwest::blocking::get].  [None] is a transport error.  Paths are
    lists of components, as [std::path] normalises them.  [path_join],
    [with_extension] and [path_extension] follow [Path::join],
    [Path::with_extension] and [Path::extension].  [std::fs::write] fails
    (a panic, through [unwrap]) when the parent directory is missing.
    Other filesystem failures are not modelled.

    Theorems: the cue files a run writes and their contents; what stays
    on disk when a medium panics; the cover-art loop (a delay after every
    image, equal type tags overwrite, an HTTP error is reported and
    skipped, a transport error aborts the run, an untagged image is
    saved beside the cover directory); the cover-art step of [main]
    (a failed request only logs a line, a single URL is saved as
    [Cover.<ext>] after the cue files). *)

From S2P Require Import Prelude RustFmt Timecode Metadata Cuesheet.

Open Scope string_scope.

Module Program.

(** ** Paths *)

(** A path, by its normal components. *)
Definition Path := list string.

(** The components of a relative path string: [Path::components]
    without the empty and [.] pieces. *)
Definition components (s : string) : list string :=
  List.filter (fun c => negb (String.eqb c "") && negb (String.eqb c "."))
    (split_on "/"%char s).

(** [Path::join] of a relative name. *)
Definition path_join (p : Path) (s : string) : Path := p ++@ components s.

(** The last dot of a file name: the part before it and the part after,
    or [None] when the name has no dot. *)
Fixpoint rsplit_dot (s : string) : option (string * string) :=
  match s with
  | EmptyString => None
  | String c s' =>
      match rsplit_dot s' with
      | Some (b, a) => Some (String c b, a)
      | None => if Ascii.eqb c "."%char then Some ("", s') else None
      end
  end.

(** [Path::file_stem] and [Path::extension] of a file name. *)
Definition file_stem (name : string) : string :=
  if String.eqb name ".." then name else
  match rsplit_dot name with
  | Some ("", _) | None => name
  | Some (b, _) => b
  end.

Definition name_extension (name : string) : option string :=
  if String.eqb name ".." then None else
  match rsplit_dot name with
  | Some ("", _) | None => None
  | Some (_, a) => Some a
  end.

(** [Path::new(s).extension()]. *)
Definition path_extension (s : string) : option string :=
  match last (components s) with
  | Some name => name_extension name
  | None => None
  end.

(** [Path::with_extension]: the stem of the last component followed by
    the extension. *)
Definition with_extension (p : Path) (ext : string) : Path :=
  match last p with
  | Some name =>
      if String.eqb name ".." then p
      else removelast p ++@
           [file_stem name ++ (if String.eqb ext "" then "" else "." ++ ext)]
  | None => p
  end.

(** All the prefixes of a path: what [create_dir_all] creates. *)
Definition ancestors (p : Path) : list Path :=
  map (fun k => take k p) (seq 1 (length p)).

(** ** The world and the monad *)

(** What a file holds: a cue sheet, or the bytes of an image, known by
    the URL they were downloaded from. *)
Inductive contents : Type :=
| Text (s : string)
| Image (url : string) (bytes : string).

Inductive event : Type :=
| ECreateDir (p : Path)
| EWrite (p : Path)
| EStderr (line : string)
| ESleep (seconds : Z).

Record World : Type := mkWorld {
  files : gmap Path contents;
  dirs : gset Path;
  log : list event }.

Definition M (A : Type) : Type := World -> outcome A * World.

Definition ret {A} (a : A) : M A := fun w => (Ok a, w).

Definition bind {A B} (c : M A) (k : A -> M B) : M B :=
  fun w => match c w with
           | (Ok a, w') => k a w'
           | (Panic m, w') => (Panic m, w')
           end.

Notation "'let*' x ':=' c 'in' k" := (bind c (fun x => k))
  (at level 100, x name, c at level 99, k at level 100) : cue_scope.

(** A pure computation that may panic. *)
Definition lift {A} (o : outcome A) : M A := fun w => (o, w).

Definition log_event (e : event) (w : World) : World :=
  mkWorld (files w) (dirs w) (log w ++@ [e]).

(** [std::fs::create_dir_all(p).unwrap()] *)
Definition create_dir_all (p : Path) : M unit := fun w =>
  (Ok tt, log_event (ECreateDir p)
            (mkWorld (files w) (list_to_set (ancestors p) ∪ dirs w) (log w))).

(** [std::fs::write(p, data).unwrap()]: fails when the parent directory
    does not exist. *)
Definition write_file (p : Path) (data : contents) : M unit := fun w =>
  let parent := removelast p in
  if bool_decide (parent = [] \/ parent ∈ dirs w)
  then (Ok tt, log_event (EWrite p) (mkWorld (<[p := data]> (files w)) (dirs w) (log w)))
  else (Panic "No such file or directory", w).

(** [eprintln!] *)
Definition eprintln (line : string) : M unit := fun w => (Ok tt, log_event (EStderr line) w).

(** [std::thread::sleep(Duration::from_secs(n))] *)
Definition sleep (n : Z) : M unit := fun w => (Ok tt, log_event (ESleep n) w).

(** ** The collaborators *)

(** A response of [reqwest::blocking::get]. *)
Module Response.
Record t := mk {
    is_success : bool;
    status : string;     (** the [Display] of the status code *)
    url_path : string;   (** [resp.url().path()], after redirects *)
    bytes : option string }.
End Response.

Module CoverartImage.
Record t := mk {
    types : list string;  (** the [{:#?}] rendering of each image type *)
    image : string }.
End CoverartImage.

Inductive CoverartResponse : Type :=
| Url (url : string)
| Json (images : list CoverartImage.t).

(** The command line (main.rs 15-25). *)
Module Args.
Record t := mk { release_id : string; cover_art : bool; out_dir : Path }.
End Args.

Section Run.

Context (fetch_release : string -> option Release.t).
Context (fetch_coverart : string -> option CoverartResponse).
Context (http_get : string -> option Response.t).
Context (overflow_checks : bool).

(** main.rs 47-56 *)
Definition download_cover_art (url : string) (output_path_prefix : Path) : M unit :=
  let* resp := lift (unwrap (http_get url)) in
  if Response.is_success resp then
    let* file_extension := lift (unwrap (path_extension (Response.url_path resp))) in
    let output_path := with_extension output_path_prefix file_extension in
    let* body := lift (unwrap (Response.bytes resp)) in
    write_file output_path (Image url body)
  else eprintln ("HTTP error code " ++ Response.status resp).

(** The loop of main.rs 159-163. *)
Fixpoint download_images (cover_art_path : Path) (images : list CoverartImage.t) : M unit :=
  match images with
  | [] => ret tt
  | img :: rest =>
      let img_filename_stem := String.concat "_" (CoverartImage.types img) in
      let* _ := download_cover_art (CoverartImage.image img)
                  (path_join cover_art_path img_filename_stem) in
      let* _ := sleep 1 in
      download_images cover_art_path rest
  end.

(** main.rs 149-169 *)
Definition cover_art_step (args : Args.t) : M unit :=
  let cover_art_path := path_join (Args.out_dir args) "Cover" in
  match fetch_coverart (Args.release_id args) with
  | Some (Url cover_art_url) => download_cover_art cover_art_url cover_art_path
  | Some (Json images) =>
      let* _ := create_dir_all cover_art_path in
      download_images cover_art_path images
  | None => eprintln "Failed to download cover art"
  end.

(** The loop of main.rs 114-146. *)
Fixpoint write_media (out_dir : Path) (release_title : string) (is_album : bool)
    (header : list string) (media : list Medium.t) : M unit :=
  match media with
  | [] => ret tt
  | medium :: rest =>
      let* file := lift (Cuesheet.medium_file overflow_checks release_title is_album
                           header medium) in
      let* _ := write_file (path_join out_dir (fst file)) (Text (snd file)) in
      write_media out_dir release_title is_album header rest
  end.

(** [main] (main.rs 58-170). *)
Definition main (args : Args.t) : M unit :=
  let* _ := create_dir_all (Args.out_dir args) in
  let* release := lift (unwrap (fetch_release (Args.release_id args))) in
  let header := release_header release in
  let* _ := match Release.media release with
            | Some media =>
                write_media (Args.out_dir args) (Release.title release)
                  (1 <? length media)%nat header media
            | None => ret tt
            end in
  if Args.cover_art args then cover_art_step args else ret tt.

End Run.

(** ** Reference definitions *)

(** The file name and text of each medium, in order, or the first panic. *)
Fixpoint media_files (overflow_checks : bool) (release_title : string) (is_album : bool)
    (header : list string) (media : list Medium.t) : outcome (list (string * string)) :=
  match media with
  | [] => Ok []
  | m :: rest =>
      let? f := Cuesheet.medium_file overflow_checks release_title is_album header m in
      let? fs := media_files overflow_checks release_title is_album header rest in
      Ok (f :: fs)
  end%cue.

(** The world after writing the files [fs] under [out]. *)
Fixpoint write_all (out : Path) (fs : list (string * string)) (w : World) : World :=
  match fs with
  | [] => w
  | (n, t) :: rest =>
      write_all out rest
        (mkWorld (<[path_join out n := Text t]> (files w)) (dirs w) (log w ++@ [EWrite (path_join out n)]))
  end.

(** A file name that is one path component. *)
Definition single_component (n : string) : Prop := components n = [n].

(** The directory [out] exists in [w]. *)
Definition dir_exists (out : Path) (w : World) : Prop := out = [] \/ out ∈ dirs w.

(** ** Lemmas on the monad and the world *)

Lemma removelast_app_single (p : Path) (n : string) : removelast (p ++@ [n]) = p.
Proof. rewrite removelast_app by discriminate. simpl. apply app_nil_r. Qed.

Lemma write_file_ok (out : Path) (n : string) (d : contents) (w : World) :
  single_component n -> dir_exists out w ->
  write_file (path_join out n) d w =
  (Ok tt, mkWorld (<[path_join out n := d]> (files w)) (dirs w) (log w ++@ [EWrite (path_join out n)])).
Proof.
  intros Hn Hd. unfold write_file, path_join. rewrite Hn, removelast_app_single.
  rewrite bool_decide_true by done. reflexivity.
Qed.

Lemma write_media_ok (checks : bool) (out : Path) (title : string) (is_album : bool)
    (header : list string) (ms : list Medium.t) (fs : list (string * string)) (w : World) :
  media_files checks title is_album header ms = Ok fs ->
  Forall (fun f => single_component (fst f)) fs -> dir_exists out w ->
  write_media checks out title is_album header ms w = (Ok tt, write_all out fs w).
Proof.
  revert fs w. induction ms as [|m ms IH]; intros fs w Hf Hn Hd; simpl in Hf.
  - by injection Hf as <-.
  - destruct (Cuesheet.medium_file checks title is_album header m) as [[n t]|] eqn:Em;
      [| discriminate]. simpl in Hf.
    destruct (media_files checks title is_album header ms) as [fs'|] eqn:Es; [| discriminate].
    injection Hf as <-. inversion Hn as [|? ? Hn0 Hn']; subst.
    simpl. unfold bind, lift. rewrite Em. simpl.
    rewrite write_file_ok by done. apply IH; [done | done |].
    destruct Hd; [by left | by right].
Qed.

Lemma write_media_panic (checks : bool) (out : Path) (title : string) (is_album : bool)
    (header : list string) (ms1 ms2 : list Medium.t) (m : Medium.t)
    (fs1 : list (string * string)) (msg : string) (w : World) :
  media_files checks title is_album header ms1 = Ok fs1 ->
  Forall (fun f => single_component (fst f)) fs1 -> dir_exists out w ->
  Cuesheet.medium_file checks title is_album header m = Panic msg ->
  write_media checks out title is_album header (ms1 ++@ m :: ms2) w = (Panic msg, write_all out fs1 w).
Proof.
  revert fs1 w. induction ms1 as [|m1 ms1 IH]; intros fs1 w Hf Hn Hd Hm; simpl in Hf.
  - injection Hf as <-. simpl. unfold bind, lift. by rewrite Hm.
  - destruct (Cuesheet.medium_file checks title is_album header m1) as [[n t]|] eqn:Em;
      [| discriminate]. simpl in Hf.
    destruct (media_files checks title is_album header ms1) as [fs'|] eqn:Es; [| discriminate].
    injection Hf as <-. inversion Hn as [|? ? Hn0 Hn']; subst.
    simpl. unfold bind, lift. rewrite Em. simpl.
    rewrite write_file_ok by done. apply IH; [done | done | | done].
    destruct Hd; [by left | by right].
Qed.

(** The world after [create_dir_all out]. *)
Definition created (out : Path) (w : World) : World :=
  log_event (ECreateDir out) (mkWorld (files w) (list_to_set (ancestors out) ∪ dirs w) (log w)).

Lemma ancestors_self (p : Path) : p <> [] -> p ∈ ancestors p.
Proof.
  intros Hp. unfold ancestors. apply list_elem_of_In, in_map_iff.
  exists (length p). split; [apply take_ge; lia |].
  apply in_seq. destruct p; [done | simpl; lia].
Qed.

Lemma created_dir_exists (out : Path) (w : World) : dir_exists out (created out w).
Proof.
  destruct out as [|c out]; [by left | right].
  unfold created, log_event. cbn [dirs]. apply elem_of_union_l. apply elem_of_list_to_set.
  by apply ancestors_self.
Qed.

(** The cover directory renamed by [with_extension]: [<out>/Cover]
    becomes [<out>/Cover.<ext>]. *)
Lemma with_extension_cover (out : Path) (ext : string) :
  ext <> "" -> with_extension (path_join out "Cover") ext = out ++@ ["Cover." ++ ext].
Proof.
  intros He. unfold with_extension, path_join. change (components "Cover") with ["Cover"].
  rewrite last_snoc. cbn [String.eqb file_stem rsplit_dot].
  rewrite removelast_app_single. by rewrite (proj2 (String.eqb_neq _ _) He).
Qed.

Lemma path_join_empty (p : Path) : path_join p "" = p.
Proof. unfold path_join. simpl. apply app_nil_r. Qed.

Section RunProofs.

Context (fetch_release : string -> option Release.t).
Context (fetch_coverart : string -> option CoverartResponse).
Context (http_get : string -> option Response.t).

(** C7: A run that fetches a release whose media all produce their
    cue sheet (without cover art) creates the output directory and then
    writes, in the order of the media, one file per medium, named
    [<format> <position>.cue] under the output directory, holding the
    rendered lines of the medium's cue sheet, where the disc suffix of
    the title is chosen by [media.len() > 1]; then it returns. *)
Theorem main_writes (checks : bool) (args : Args.t) (r : Release.t) (ms : list Medium.t)
    (fs : list (string * string)) (w : World) :
  fetch_release (Args.release_id args) = Some r -> Release.media r = Some ms ->
  media_files checks (Release.title r) (1 <? length ms)%nat (release_header r) ms = Ok fs ->
  Forall (fun f => single_component (fst f)) fs -> Args.cover_art args = false ->
  main fetch_release fetch_coverart http_get checks args w = (Ok tt, write_all (Args.out_dir args) fs (created (Args.out_dir args) w)).
Proof.
  intros Hr Hm Hf Hn Hc. unfold main.
  change (bind (create_dir_all (Args.out_dir args)) ?k w) with (k tt (created (Args.out_dir args) w)).
  cbv beta. unfold bind at 1, lift. rewrite Hr. cbn [unwrap]. rewrite Hm.
  unfold bind at 1. rewrite (write_media_ok _ _ _ _ _ _ fs); [| exact Hf | exact Hn | apply created_dir_exists].
  by rewrite Hc.
Qed.

(** C6: When the cue sheet of a medium panics (a track without a
    length), the run stops there, but the cue files of all the media
    before it are already written and stay on disk: the output is
    partial, not all-or-nothing. *)
Theorem main_partial_output (checks : bool) (args : Args.t) (r : Release.t)
    (ms1 ms2 : list Medium.t) (m : Medium.t) (fs1 : list (string * string)) (msg : string)
    (w : World) :
  fetch_release (Args.release_id args) = Some r -> Release.media r = Some (ms1 ++@ m :: ms2) ->
  media_files checks (Release.title r) (1 <? length (ms1 ++@ m :: ms2))%nat (release_header r) ms1
    = Ok fs1 ->
  Forall (fun f => single_component (fst f)) fs1 ->
  Cuesheet.medium_file checks (Release.title r) (1 <? length (ms1 ++@ m :: ms2))%nat
    (release_header r) m = Panic msg ->
  main fetch_release fetch_coverart http_get checks args w = (Panic msg, write_all (Args.out_dir args) fs1 (created (Args.out_dir args) w)).
Proof.
  intros Hr Hm Hf Hn Hp. unfold main.
  change (bind (create_dir_all (Args.out_dir args)) ?k w) with (k tt (created (Args.out_dir args) w)).
  cbv beta. unfold bind at 1, lift. rewrite Hr. cbn [unwrap]. rewrite Hm.
  unfold bind at 1.
  by rewrite (write_media_panic _ _ _ _ _ _ _ _ fs1 msg); [| exact Hf | exact Hn | apply created_dir_exists | exact Hp].
Qed.

(** After the media, [main] goes on with the cover-art step, if asked
    for, on the world the cue files were written into. *)
Lemma main_after_media (checks : bool) (args : Args.t) (r : Release.t) (ms : list Medium.t)
    (fs : list (string * string)) (w : World) :
  fetch_release (Args.release_id args) = Some r -> Release.media r = Some ms ->
  media_files checks (Release.title r) (1 <? length ms)%nat (release_header r) ms = Ok fs ->
  Forall (fun f => single_component (fst f)) fs ->
  main fetch_release fetch_coverart http_get checks args w =
  (if Args.cover_art args then cover_art_step fetch_coverart http_get args else ret tt)
    (write_all (Args.out_dir args) fs (created (Args.out_dir args) w)).
Proof.
  intros Hr Hm Hf Hn. unfold main.
  change (bind (create_dir_all (Args.out_dir args)) ?k w) with (k tt (created (Args.out_dir args) w)).
  cbv beta. unfold bind at 1, lift. rewrite Hr. cbn [unwrap]. rewrite Hm.
  unfold bind at 1.
  by rewrite (write_media_ok _ _ _ _ _ _ fs); [| exact Hf | exact Hn | apply created_dir_exists].
Qed.

Lemma write_all_dirs (out : Path) (fs : list (string * string)) (w : World) :
  dirs (write_all out fs w) = dirs w.
Proof. revert w. induction fs as [|[n t] fs IH]; intros w; [done |]. simpl. by rewrite IH. Qed.

Lemma dir_exists_write_all (out p : Path) (fs : list (string * string)) (w : World) :
  dir_exists p w -> dir_exists p (write_all out fs w).
Proof. unfold dir_exists. by rewrite write_all_dirs. Qed.

(** C22: A failed cover-art request does not abort the run: after the
    cue files of every medium are written, [main] reports
    [Failed to download cover art] on standard error and returns
    normally. *)
Theorem main_cover_art_unavailable (checks : bool) (args : Args.t) (r : Release.t)
    (ms : list Medium.t) (fs : list (string * string)) (w : World) :
  fetch_release (Args.release_id args) = Some r -> Release.media r = Some ms ->
  media_files checks (Release.title r) (1 <? length ms)%nat (release_header r) ms = Ok fs ->
  Forall (fun f => single_component (fst f)) fs -> Args.cover_art args = true ->
  fetch_coverart (Args.release_id args) = None ->
  main fetch_release fetch_coverart http_get checks args w =
  (Ok tt, log_event (EStderr "Failed to download cover art")
            (write_all (Args.out_dir args) fs (created (Args.out_dir args) w))).
Proof.
  intros Hr Hm Hf Hn Hc Hx. rewrite (main_after_media _ _ r ms fs) by done.
  rewrite Hc. unfold cover_art_step. by rewrite Hx.
Qed.

(** C23: When the cover-art service answers with a single image URL
    whose download succeeds, [main] writes the image, after all the cue
    files, to [<out>/Cover.<ext>] (the extension taken from the final
    URL's path), as its last action. *)
Theorem main_cover_art_url (checks : bool) (args : Args.t) (r : Release.t)
    (ms : list Medium.t) (fs : list (string * string)) (w : World) (u : string)
    (resp : Response.t) (ext b : string) :
  fetch_release (Args.release_id args) = Some r -> Release.media r = Some ms ->
  media_files checks (Release.title r) (1 <? length ms)%nat (release_header r) ms = Ok fs ->
  Forall (fun f => single_component (fst f)) fs -> Args.cover_art args = true ->
  fetch_coverart (Args.release_id args) = Some (Url u) ->
  http_get u = Some resp -> Response.is_success resp = true ->
  path_extension (Response.url_path resp) = Some ext -> ext <> "" ->
  Response.bytes resp = Some b ->
  exists w', main fetch_release fetch_coverart http_get checks args w = (Ok tt, w') /\
  files w' !! (Args.out_dir args ++@ ["Cover." ++ ext]) = Some (Image u b) /\
  log w' = log (write_all (Args.out_dir args) fs (created (Args.out_dir args) w)) ++@
           [EWrite (Args.out_dir args ++@ ["Cover." ++ ext])].
Proof.
  intros Hr Hm Hf Hn Hc Hx Hg Hs He Hne Hb. rewrite (main_after_media _ _ r ms fs) by done.
  rewrite Hc. unfold cover_art_step. rewrite Hx.
  unfold download_cover_art, bind, lift. rewrite Hg. cbn [unwrap]. rewrite Hs, He.
  cbn [unwrap]. rewrite Hb. cbn [unwrap]. unfold write_file.
  rewrite with_extension_cover, removelast_app_single by done.
  rewrite bool_decide_true.
  - eexists. split; [reflexivity |]. split; [apply lookup_insert_eq | reflexivity].
  - apply dir_exists_write_all, created_dir_exists.
Qed.

End RunProofs.

(** ** The cover-art loop *)

(** Where the image [img] is saved under [cover] with extension [ext]. *)
Definition image_path (cover : Path) (img : CoverartImage.t) (ext : string) : Path :=
  with_extension (path_join cover (String.concat "_" (CoverartImage.types img))) ext.

Section CoverArt.

Context (http_get : string -> option Response.t).

(** What the download of [img] leaves in the log. *)
Definition image_event (cover : Path) (img : CoverartImage.t) : event :=
  match http_get (CoverartImage.image img) with
  | Some resp =>
      if Response.is_success resp then
        match path_extension (Response.url_path resp) with
        | Some ext => EWrite (image_path cover img ext)
        | None => EStderr ""
        end
      else EStderr ("HTTP error code " ++ Response.status resp)
  | None => EStderr ""
  end.

(** The download of [img] does not panic: the request gets a response,
    and a successful response has an extension and a body. *)
Definition image_ok (img : CoverartImage.t) : Prop :=
  exists resp, http_get (CoverartImage.image img) = Some resp /\
  (Response.is_success resp = true ->
   exists ext b, path_extension (Response.url_path resp) = Some ext /\ Response.bytes resp = Some b).

(** The file-name stem of [img] is one plain path component. *)
Definition stem_ok (img : CoverartImage.t) : Prop :=
  let stem := String.concat "_" (CoverartImage.types img) in
  single_component stem /\ stem <> "..".

Lemma image_path_parent (cover : Path) (img : CoverartImage.t) (ext : string) :
  stem_ok img -> removelast (image_path cover img ext) = cover.
Proof.
  intros [Hs Hd]. unfold single_component in Hs.
  unfold image_path, with_extension, path_join. rewrite Hs, last_snoc.
  rewrite (proj2 (String.eqb_neq _ _) Hd). by rewrite !removelast_app_single.
Qed.

(** One successful download writes the image at its path. *)
Lemma download_cover_art_ok (cover : Path) (img : CoverartImage.t) (resp : Response.t)
    (ext b : string) (w : World) :
  stem_ok img -> dir_exists cover w ->
  http_get (CoverartImage.image img) = Some resp -> Response.is_success resp = true ->
  path_extension (Response.url_path resp) = Some ext -> Response.bytes resp = Some b ->
  download_cover_art http_get (CoverartImage.image img)
    (path_join cover (String.concat "_" (CoverartImage.types img))) w =
  (Ok tt, mkWorld (<[image_path cover img ext := Image (CoverartImage.image img) b]> (files w))
            (dirs w) (log w ++@ [EWrite (image_path cover img ext)])).
Proof.
  intros Hst Hd Hg Hs He Hb. unfold download_cover_art, bind, lift.
  rewrite Hg. cbn [unwrap]. rewrite Hs, He. cbn [unwrap]. rewrite Hb. cbn [unwrap].
  unfold write_file. fold (image_path cover img ext).
  rewrite image_path_parent by done. rewrite bool_decide_true by done. reflexivity.
Qed.

(** One download that does not panic adds its event to the log. *)
Lemma download_cover_art_log (cover : Path) (img : CoverartImage.t) (w : World) :
  image_ok img -> stem_ok img -> dir_exists cover w ->
  exists fs, download_cover_art http_get (CoverartImage.image img)
    (path_join cover (String.concat "_" (CoverartImage.types img))) w =
  (Ok tt, mkWorld fs (dirs w) (log w ++@ [image_event cover img])).
Proof.
  intros [resp [Hg Hr]] Hst Hd. destruct (Response.is_success resp) eqn:Hs.
  - destruct (Hr eq_refl) as (ext & b & He & Hb). eexists.
    rewrite (download_cover_art_ok cover img resp ext b) by done.
    unfold image_event. by rewrite Hg, Hs, He.
  - exists (files w). unfold download_cover_art, bind, lift. rewrite Hg. cbn [unwrap].
    rewrite Hs. unfold image_event. by rewrite Hg, Hs.
Qed.

(** C17: The cover-art loop over images that each get a response and
    have plain file names never stops early: an HTTP error status is
    reported on standard error and the loop goes on with the next image,
    and every image, the last one included, is followed by a one-second
    sleep, so n images cost n seconds of delay. *)
Theorem download_images_log (cover : Path) (imgs : list CoverartImage.t) (w : World) :
  Forall image_ok imgs -> Forall stem_ok imgs -> dir_exists cover w ->
  exists w', download_images http_get cover imgs w = (Ok tt, w') /\
  log w' = log w ++@ concat (map (fun img => [image_event cover img; ESleep 1]) imgs).
Proof.
  revert w. induction imgs as [|img imgs IH]; intros w Hok Hst Hd.
  - exists w. split; [done | by rewrite app_nil_r].
  - inversion Hok as [|? ? Hok1 Hok']; inversion Hst as [|? ? Hst1 Hst']; subst.
    destruct (download_cover_art_log cover img w Hok1 Hst1 Hd) as [fs Hdl].
    cbn [download_images]. unfold bind at 1. rewrite Hdl.
    unfold bind at 1, sleep.
    destruct (IH (log_event (ESleep 1) (mkWorld fs (dirs w) (log w ++@ [image_event cover img]))))
      as (w' & Hw' & Hl); [done | done | destruct Hd; [by left | by right] |].
    exists w'. split; [done |]. rewrite Hl. simpl. by rewrite <- !app_assoc.
Qed.

(** C18: A transport failure of [reqwest::blocking::get] on one image
    is not an error that is reported and skipped: the [unwrap] panics and
    the images after it are never downloaded. *)
Theorem download_images_transport_error (cover : Path) (img : CoverartImage.t)
    (rest : list CoverartImage.t) (w : World) :
  http_get (CoverartImage.image img) = None ->
  download_images http_get cover (img :: rest) w = (Panic unwrap_msg, w).
Proof. intros Hg. cbn [download_images]. unfold bind, download_cover_art, bind, lift. by rewrite Hg. Qed.

(** C19: Two images with the same type tags are saved under the same
    file name: when both downloads succeed with the same extension, the
    second overwrites the first, and only its bytes remain. *)
Theorem download_images_overwrite (cover : Path) (img1 img2 : CoverartImage.t)
    (resp1 resp2 : Response.t) (ext b1 b2 : string) (w : World) :
  CoverartImage.types img1 = CoverartImage.types img2 -> stem_ok img1 -> dir_exists cover w ->
  http_get (CoverartImage.image img1) = Some resp1 -> Response.is_success resp1 = true ->
  path_extension (Response.url_path resp1) = Some ext -> Response.bytes resp1 = Some b1 ->
  http_get (CoverartImage.image img2) = Some resp2 -> Response.is_success resp2 = true ->
  path_extension (Response.url_path resp2) = Some ext -> Response.bytes resp2 = Some b2 ->
  exists w', download_images http_get cover [img1; img2] w = (Ok tt, w') /\
  files w' !! image_path cover img1 ext = Some (Image (CoverartImage.image img2) b2).
Proof.
  intros Ht Hst Hd Hg1 Hs1 He1 Hb1 Hg2 Hs2 He2 Hb2.
  assert (Hst2 : stem_ok img2) by (unfold stem_ok in *; by rewrite <- Ht).
  assert (Hp : image_path cover img2 ext = image_path cover img1 ext) by (unfold image_path; by rewrite Ht).
  cbn [download_images]. unfold bind at 1.
  rewrite (download_cover_art_ok cover img1 resp1 ext b1) by done.
  unfold bind at 1, sleep, bind at 1.
  rewrite (download_cover_art_ok cover img2 resp2 ext b2); [| done | by destruct Hd; [left | right] | done ..].
  eexists. split; [reflexivity |]. simpl. rewrite Hp. apply lookup_insert_eq.
Qed.

(** C20: An image without type tags gets the empty file-name stem, so
    the join adds nothing to the cover directory [<out>/Cover] and
    [with_extension] renames that directory component itself: when its
    download succeeds, the cover-art loop writes the image to
    [<out>/Cover.<ext>], beside the cover directory and not inside it. *)
Theorem download_images_untagged (out : Path) (img : CoverartImage.t) (resp : Response.t)
    (ext b : string) (w : World) :
  CoverartImage.types img = [] -> ext <> "" -> dir_exists out w ->
  http_get (CoverartImage.image img) = Some resp -> Response.is_success resp = true ->
  path_extension (Response.url_path resp) = Some ext -> Response.bytes resp = Some b ->
  exists w', download_images http_get (path_join out "Cover") [img] w = (Ok tt, w') /\
  files w' !! (out ++@ ["Cover." ++ ext]) = Some (Image (CoverartImage.image img) b).
Proof.
  intros Ht He Hd Hg Hs Hx Hb. cbn [download_images]. rewrite Ht. cbn [String.concat].
  rewrite path_join_empty. unfold bind at 1, download_cover_art, bind, lift.
  rewrite Hg. cbn [unwrap]. rewrite Hs, Hx. cbn [unwrap]. rewrite Hb. cbn [unwrap].
  unfold write_file. rewrite with_extension_cover, removelast_app_single by done.
  rewrite bool_decide_true by done.
  eexists. split; [reflexivity |]. apply lookup_insert_eq.
Qed.

End CoverArt.

(** Concrete cover-art runs. *)

Definition ex_img (t : string) (url : string) : CoverartImage.t := CoverartImage.mk [t] url.

(** The server answers [a] and [b] with JPEG images and [missing] with
    404; [down] does not answer. *)
Definition ex_http (url : string) : option Response.t :=
  if String.eqb url "down" then None
  else if String.eqb url "missing" then Some (Response.mk false "404 Not Found" "/x" None)
  else Some (Response.mk true "200 OK" ("/img/" ++ url ++ ".jpg") (Some ("bytes of " ++ url))).

Definition cover_world : World := mkWorld ∅ {[ ["out"; "Cover"] ]} [].

Lemma download_images_log_witness :
  exists w', download_images ex_http ["out"; "Cover"]
    [ex_img "Front" "a"; ex_img "Back" "missing"] cover_world = (Ok tt, w') /\
  log w' = [EWrite ["out"; "Cover"; "Front.jpg"]; ESleep 1;
            EStderr "HTTP error code 404 Not Found"; ESleep 1].
Proof.
  destruct (download_images_log ex_http ["out"; "Cover"]
              [ex_img "Front" "a"; ex_img "Back" "missing"] cover_world) as (w' & H1 & H2).
  - repeat constructor; eexists; split; [reflexivity | | reflexivity |]; simpl; try discriminate.
    intros _. do 2 eexists. split; reflexivity.
  - repeat constructor; vm_compute; try reflexivity; discriminate.
  - right. vm_compute. set_solver.
  - exists w'. split; [done |]. rewrite H2. vm_compute. reflexivity.
Defined.

Lemma download_images_transport_error_witness :
  download_images ex_http ["out"; "Cover"] [ex_img "Front" "down"; ex_img "Back" "a"] cover_world
  = (Panic unwrap_msg, cover_world).
Proof. apply download_images_transport_error. reflexivity. Defined.

Lemma download_images_overwrite_witness :
  exists w', download_images ex_http ["out"; "Cover"]
    [ex_img "Medium" "a"; ex_img "Medium" "b"] cover_world = (Ok tt, w') /\
  files w' !! ["out"; "Cover"; "Medium.jpg"] = Some (Image "b" "bytes of b").
Proof.
  destruct (download_images_overwrite ex_http ["out"; "Cover"] (ex_img "Medium" "a")
              (ex_img "Medium" "b") (Response.mk true "200 OK" "/img/a.jpg" (Some "bytes of a"))
              (Response.mk true "200 OK" "/img/b.jpg" (Some "bytes of b"))
              "jpg" "bytes of a" "bytes of b" cover_world)
    as (w' & H1 & H2); try reflexivity.
  - split; [vm_compute; reflexivity | discriminate].
  - right. vm_compute. set_solver.
  - exists w'. split; [done | exact H2].
Defined.

Lemma download_images_untagged_witness :
  exists w', download_images ex_http (path_join ["out"] "Cover") [CoverartImage.mk [] "a"]
    (mkWorld ∅ {[ ["out"] ]} []) = (Ok tt, w') /\
  files w' !! ["out"; "Cover.jpg"] = Some (Image "a" "bytes of a").
Proof.
  apply (download_images_untagged ex_http ["out"] (CoverartImage.mk [] "a")
           (Response.mk true "200 OK" "/img/a.jpg" (Some "bytes of a")) "jpg" "bytes of a");
    try reflexivity; [discriminate | right; set_solver].
Defined.

(** ** A concrete run *)

Definition ex_track (pos : Z) (len : option Z) : Track.t :=
  Track.mk pos "Song" (Recording.mk None) len.

Definition ex_medium (pos : Z) (len : option Z) : Medium.t :=
  Medium.mk (Some "CD") (Some pos) None (Some [ex_track 1 (Some 180000%Z); ex_track 2 len]).

Definition ex_release (len2 : option Z) : Release.t :=
  Release.mk "mbid" "Album" (Some [ArtistCredit.mk "Artist" None]) None None
    (Some [ex_medium 1 (Some 200000%Z); ex_medium 2 len2]).

Definition ex_args : Args.t := Args.mk "mbid" false ["out"].

Definition empty_world : World := mkWorld ∅ ∅ [].

Definition ex_files (len2 : option Z) : list (string * string) :=
  match media_files false "Album" true (release_header (ex_release len2))
          [ex_medium 1 (Some 200000%Z)] with
  | Ok fs => fs
  | Panic _ => []
  end.

Lemma main_partial_output_witness :
  main (fun _ => Some (ex_release None)) (fun _ => None) (fun _ => None) false ex_args empty_world =
  (Panic unwrap_msg, write_all ["out"] (ex_files None) (created ["out"] empty_world)) /\
  files (write_all ["out"] (ex_files None) (created ["out"] empty_world)) !! ["out"; "CD 01.cue"]
    <> None /\
  files (write_all ["out"] (ex_files None) (created ["out"] empty_world)) !! ["out"; "CD 02.cue"]
    = None.
Proof.
  split; [| split; vm_compute; [discriminate | reflexivity]].
  apply (main_partial_output _ _ _ false ex_args (ex_release None)
           [ex_medium 1 (Some 200000%Z)] [] (ex_medium 2 None) (ex_files None) unwrap_msg
           empty_world); vm_compute; try reflexivity.
  repeat constructor.
Defined.

Lemma main_writes_witness :
  main (fun _ => Some (ex_release (Some 1000%Z))) (fun _ => None) (fun _ => None) false
    ex_args empty_world =
  (Ok tt, write_all ["out"]
            (match media_files false "Album" true (release_header (ex_release (Some 1000%Z)))
                     [ex_medium 1 (Some 200000%Z); ex_medium 2 (Some 1000%Z)] with
             | Ok fs => fs | Panic _ => [] end)
            (created ["out"] empty_world)).
Proof.
  apply (main_writes _ _ _ false ex_args (ex_release (Some 1000%Z))
           [ex_medium 1 (Some 200000%Z); ex_medium 2 (Some 1000%Z)]);
    vm_compute; try reflexivity.
  repeat constructor.
Defined.

Definition ex_args_cover : Args.t := Args.mk "mbid" true ["out"].

Definition ex_all_files : list (string * string) :=
  match media_files false "Album" true (release_header (ex_release (Some 1000%Z)))
          [ex_medium 1 (Some 200000%Z); ex_medium 2 (Some 1000%Z)] with
  | Ok fs => fs | Panic _ => [] end.

Lemma main_cover_art_unavailable_witness :
  main (fun _ => Some (ex_release (Some 1000%Z))) (fun _ => None) ex_http false
    ex_args_cover empty_world =
  (Ok tt, log_event (EStderr "Failed to download cover art")
            (write_all ["out"] ex_all_files (created ["out"] empty_world))).
Proof.
  apply (main_cover_art_unavailable _ _ _ false ex_args_cover (ex_release (Some 1000%Z))
           [ex_medium 1 (Some 200000%Z); ex_medium 2 (Some 1000%Z)]);
    try reflexivity.
  repeat constructor.
Defined.

Lemma main_cover_art_url_witness :
  exists w', main (fun _ => Some (ex_release (Some 1000%Z))) (fun _ => Some (Url "a")) ex_http
    false ex_args_cover empty_world = (Ok tt, w') /\
  files w' !! ["out"; "Cover.jpg"] = Some (Image "a" "bytes of a") /\
  log w' = log (write_all ["out"] ex_all_files (created ["out"] empty_world)) ++@
           [EWrite ["out"; "Cover.jpg"]].
Proof.
  apply (main_cover_art_url _ _ _ false ex_args_cover (ex_release (Some 1000%Z))
           [ex_medium 1 (Some 200000%Z); ex_medium 2 (Some 1000%Z)] ex_all_files empty_world "a"
           (Response.mk true "200 OK" "/img/a.jpg" (Some "bytes of a")) "jpg" "bytes of a");
    try reflexivity; [repeat constructor | discriminate].
Defined.

End Program.
